(** * Event registration and waitlist state machine

    A shallow embedding of the registration / waitlist services
    ([events/registration.service.ts], [events/waitlist.service.ts]), the
    cron sweeps and the PostgreSQL triggers ([update_event_seat_count],
    [assign_waitlist_position]) of the OSA community platform, together
    with the columns and the unique indexes of the initial migration.

    Conventions of the embedding:
    - a table is the list of its rows, in insertion order; a lookup or an
      update by a unique key concerns the first row the key selects;
    - row identifiers (uuid strings in the schema) are opaque keys that are
      only ever compared for equality; they are natural numbers here and a
      freshly generated one is one more than the largest key of its table;
    - a [DateTime] is its number of milliseconds since the epoch; every
      operation receives the value of the clock as the argument [now], which
      stands for each [new Date()] and [NOW()] of that operation; what
      [setHours(getHours() + n)] makes of an instant depends on the time
      zone of the server and is a parameter ([LocalClock]);
    - a Prisma interactive transaction [$transaction(async tx => ...)] is a
      computation over the database that may throw; when it throws every
      write it made is rolled back;
    - the triggers name columns in snake case ([current_seats],
      [event_id]) where the migration creates them in camel case
      ([currentSeats], [eventId]) and the Prisma schema maps no field: a
      statement of a trigger that names a column its relation does not have
      raises when it is executed;
    - the e-mail collaborator does not touch the database and, as the
      error-recovery table of the services says, never blocks a transaction;
      it is left out. *)

From Stdlib Require Import List ZArith String Bool Arith Lia Permutation.
Import ListNotations.
Local Open Scope string_scope.
Local Open Scope Z_scope.

(** ** Enumerations of the schema *)

Inductive RegistrationStatus := PENDING | CONFIRMED | CANCELLED | COMPLETED.

Inductive PaymentStatus := PAY_PENDING | PAY_COMPLETED | PAY_FAILED | PAY_REFUNDED.

Inductive WaitlistStatus := WAITING | OFFERED | ACCEPTED | EXPIRED | DECLINED.

Definition RegistrationStatus_eqb (a b : RegistrationStatus) : bool :=
  match a, b with
  | PENDING, PENDING | CONFIRMED, CONFIRMED
  | CANCELLED, CANCELLED | COMPLETED, COMPLETED => true
  | _, _ => false
  end.

Definition WaitlistStatus_eqb (a b : WaitlistStatus) : bool :=
  match a, b with
  | WAITING, WAITING | OFFERED, OFFERED | ACCEPTED, ACCEPTED
  | EXPIRED, EXPIRED | DECLINED, DECLINED => true
  | _, _ => false
  end.

Lemma RegistrationStatus_eqb_spec a b :
  reflect (a = b) (RegistrationStatus_eqb a b).
Proof. destruct a, b; constructor; congruence. Qed.

Lemma WaitlistStatus_eqb_spec a b :
  reflect (a = b) (WaitlistStatus_eqb a b).
Proof. destruct a, b; constructor; congruence. Qed.

(** ** Rows *)

Definition Id := nat.
Definition DateTime := Z.

Record User := mkUser {
  user_id : Id;
  user_email : string
}.

Record Event := mkEvent {
  ev_id : Id;
  ev_title : string;
  ev_registrationDeadline : option DateTime;
  ev_maxSeats : Z;
  ev_currentSeats : Z;
  ev_isFree : bool;
  ev_price : option Z;
  ev_stripePriceId : option string;
  ev_status : string;
  ev_updatedAt : DateTime
}.

Record EventRegistration := mkRegistration {
  reg_id : Id;
  reg_eventId : Id;
  reg_userId : Id;
  reg_status : RegistrationStatus;
  reg_paymentStatus : option PaymentStatus;
  reg_stripeSessionId : option string;
  reg_registeredAt : DateTime;
  reg_confirmedAt : option DateTime;
  reg_cancelledAt : option DateTime;
  reg_cancelReason : option string
}.

Record WaitlistEntry := mkWaitlistEntry {
  wl_id : Id;
  wl_eventId : Id;
  wl_userId : Id;
  wl_email : string;
  wl_position : Z;
  wl_status : WaitlistStatus;
  wl_offeredAt : option DateTime;
  wl_expiresAt : option DateTime;
  wl_respondedAt : option DateTime;
  wl_createdAt : DateTime;
  wl_updatedAt : DateTime
}.

Record DB := mkDB {
  users : list User;
  events : list Event;
  event_registrations : list EventRegistration;
  waitlist : list WaitlistEntry
}.

(** ** Exceptions *)

Inductive Error :=
| BadRequestException (msg : string)
| ConflictException (msg : string)
| JsError (msg : string)
| TypeError
| PrismaUniqueConstraint
| PrismaForeignKey
| PrismaRecordNotFound
| PgIntegerOutOfRange
| PgUndefinedColumn.

(** The names the specification gives to the exceptions the services throw. *)
Definition EventNotFound := BadRequestException "Event not found".
Definition OfferingNotOpen := BadRequestException "Event is not open for registration".
Definition DeadlinePassed := BadRequestException "Registration deadline has passed".
Definition AlreadyRegistered := ConflictException "Already registered for this event".
Definition AlreadyWaitlisted := ConflictException "Already on waitlist for this event".
Definition RegistrationNotFound := JsError "Registration not found".
Definition RegistrationNotPending := JsError "Registration is not pending".
Definition CancelNotFound := BadRequestException "Registration not found".
Definition CancellationNotAllowed := BadRequestException "Cannot cancel this registration".
Definition EntryNotFound := BadRequestException "Waitlist entry not found".
Definition NotAuthorized := BadRequestException "Not authorized".
Definition OfferNotActive := BadRequestException "No active offer for this entry".
Definition NoOfferToDecline := BadRequestException "No active offer to decline".
Definition OfferExpired := BadRequestException "Offer has expired".
Definition NoCapacity := BadRequestException "No spots available".
Definition CheckoutCreationFailed := BadRequestException "Failed to create checkout session".

(** ** The transaction monad *)

Inductive Outcome (A : Type) :=
| Ok (a : A)
| Throw (e : Error).
Arguments Ok {A} a.
Arguments Throw {A} e.

Definition Tx (A : Type) := DB -> Outcome A * DB.

Definition ret {A} (a : A) : Tx A := fun db => (Ok a, db).

Definition throw {A} (e : Error) : Tx A := fun db => (Throw e, db).

Definition bind {A B} (m : Tx A) (k : A -> Tx B) : Tx B :=
  fun db =>
    match m db with
    | (Ok a, db') => k a db'
    | (Throw e, db') => (Throw e, db')
    end.

Notation "x <- m ;; k" := (bind m (fun x => k))
  (at level 61, m at next level, right associativity).
Notation "m ;; k" := (bind m (fun _ => k))
  (at level 61, right associativity).

Definition query {A} (f : DB -> A) : Tx A := fun db => (Ok (f db), db).

(** [prisma.$transaction(async (tx) => body)]: commit when the callback
    returns, roll every write back when it throws. *)
Definition transaction {A} (body : Tx A) : Tx A :=
  fun db =>
    match body db with
    | (Ok a, db') => (Ok a, db')
    | (Throw e, _) => (Throw e, db)
    end.

(** What a call leaves in the database, and what it returned if it did. *)
Definition committed {A} (r : Outcome A * DB) : DB := snd r.

Definition returned {A} (r : Outcome A * DB) : option A :=
  match fst r with
  | Ok a => Some a
  | Throw _ => None
  end.

(** ** Record updates *)

Definition set_events (f : list Event -> list Event) (db : DB) : DB :=
  mkDB (users db) (f (events db)) (event_registrations db) (waitlist db).

Definition set_event_registrations
  (f : list EventRegistration -> list EventRegistration) (db : DB) : DB :=
  mkDB (users db) (events db) (f (event_registrations db)) (waitlist db).

Definition set_waitlist (f : list WaitlistEntry -> list WaitlistEntry) (db : DB) : DB :=
  mkDB (users db) (events db) (event_registrations db) (f (waitlist db)).

Definition with_seats (e : Event) (seats : Z) (now : DateTime) : Event :=
  mkEvent (ev_id e) (ev_title e) (ev_registrationDeadline e) (ev_maxSeats e)
          seats (ev_isFree e) (ev_price e) (ev_stripePriceId e) (ev_status e) now.

Definition with_position (w : WaitlistEntry) (position : Z) : WaitlistEntry :=
  mkWaitlistEntry (wl_id w) (wl_eventId w) (wl_userId w) (wl_email w) position
                  (wl_status w) (wl_offeredAt w) (wl_expiresAt w) (wl_respondedAt w)
                  (wl_createdAt w) (wl_updatedAt w).

Definition with_updatedAt (w : WaitlistEntry) (now : DateTime) : WaitlistEntry :=
  mkWaitlistEntry (wl_id w) (wl_eventId w) (wl_userId w) (wl_email w) (wl_position w)
                  (wl_status w) (wl_offeredAt w) (wl_expiresAt w) (wl_respondedAt w)
                  (wl_createdAt w) now.

(** [data: { status: 'OFFERED', offeredAt, expiresAt }] *)
Definition data_offered (offeredAt expiresAt : DateTime) (w : WaitlistEntry) : WaitlistEntry :=
  mkWaitlistEntry (wl_id w) (wl_eventId w) (wl_userId w) (wl_email w) (wl_position w)
                  OFFERED (Some offeredAt) (Some expiresAt) (wl_respondedAt w)
                  (wl_createdAt w) (wl_updatedAt w).

(** [data: { status, respondedAt }] *)
Definition data_responded (status : WaitlistStatus) (respondedAt : DateTime)
  (w : WaitlistEntry) : WaitlistEntry :=
  mkWaitlistEntry (wl_id w) (wl_eventId w) (wl_userId w) (wl_email w) (wl_position w)
                  status (wl_offeredAt w) (wl_expiresAt w) (Some respondedAt)
                  (wl_createdAt w) (wl_updatedAt w).

(** [data: { status }] *)
Definition data_status (status : WaitlistStatus) (w : WaitlistEntry) : WaitlistEntry :=
  mkWaitlistEntry (wl_id w) (wl_eventId w) (wl_userId w) (wl_email w) (wl_position w)
                  status (wl_offeredAt w) (wl_expiresAt w) (wl_respondedAt w)
                  (wl_createdAt w) (wl_updatedAt w).

(** [data: { status: 'CONFIRMED', paymentStatus: 'COMPLETED', stripeSessionId,
    confirmedAt }] *)
Definition data_confirmed (stripeSessionId : string) (confirmedAt : DateTime)
  (r : EventRegistration) : EventRegistration :=
  mkRegistration (reg_id r) (reg_eventId r) (reg_userId r) CONFIRMED
                 (Some PAY_COMPLETED) (Some stripeSessionId) (reg_registeredAt r)
                 (Some confirmedAt) (reg_cancelledAt r) (reg_cancelReason r).

(** [data: { status: 'CANCELLED', cancelledAt, cancelReason: reason }]; an
    [undefined] reason leaves the column as it is. *)
Definition data_cancelled (cancelledAt : DateTime) (reason : option string)
  (r : EventRegistration) : EventRegistration :=
  mkRegistration (reg_id r) (reg_eventId r) (reg_userId r) CANCELLED
                 (reg_paymentStatus r) (reg_stripeSessionId r) (reg_registeredAt r)
                 (reg_confirmedAt r) (Some cancelledAt)
                 (match reason with Some s => Some s | None => reg_cancelReason r end).

(** ** Generic table helpers *)

(** The row a primary-key update touches: the first one the key selects. *)
Fixpoint update_first {A} (p : A -> bool) (f : A -> A) (l : list A) : list A :=
  match l with
  | [] => []
  | x :: t => if p x then f x :: t else x :: update_first p f t
  end.

Definition fresh_id (ids : list Id) : Id := S (list_max ids).

Fixpoint sql_max (l : list Z) : option Z :=
  match l with
  | [] => None
  | x :: t => match sql_max t with
              | None => Some x
              | Some m => Some (Z.max x m)
              end
  end.

Definition coalesce (o : option Z) (d : Z) : Z :=
  match o with Some v => v | None => d end.

(** PostgreSQL [INTEGER]: arithmetic that leaves the range raises. *)
Definition INT4_MAX : Z := 2147483647.
Definition INT4_MIN : Z := -2147483648.

(** ** Columns of the schema *)

(** The columns the initial migration creates for the three tables; a
    quoted identifier keeps its case. *)
Definition events_columns : list string :=
  ["id"; "title"; "slug"; "excerpt"; "content"; "categoryId"; "startDate"; "endDate";
   "registrationDeadline"; "maxSeats"; "currentSeats"; "location"; "locationDetails";
   "isVirtual"; "virtualLink"; "isFree"; "price"; "isRecurring"; "recurringInterval";
   "stripePriceId"; "featuredImage"; "gallery"; "status"; "isActive"; "publishedAt";
   "createdById"; "createdAt"; "updatedAt"].

Definition event_registrations_columns : list string :=
  ["id"; "eventId"; "userId"; "status"; "paymentStatus"; "stripeSessionId"; "stripeSubId";
   "registeredAt"; "confirmedAt"; "cancelledAt"; "cancelReason"].

Definition waitlist_columns : list string :=
  ["id"; "eventId"; "userId"; "email"; "position"; "status"; "offeredAt"; "expiresAt";
   "respondedAt"; "createdAt"; "updatedAt"].

(** Whether a relation (or the row variable [NEW] / [OLD] of a trigger on
    it) has every column a statement names. The triggers write their
    identifiers unquoted, in lower case. *)
Definition has_columns (relation names : list string) : bool :=
  forallb (fun c => existsb (String.eqb c) relation) names.

(** ** Reads *)

Definition event_findUnique (id : Id) (db : DB) : option Event :=
  find (fun e => Nat.eqb (ev_id e) id) (events db).

Definition user_findUnique (id : Id) (db : DB) : option User :=
  find (fun u => Nat.eqb (user_id u) id) (users db).

Definition eventRegistration_findUnique (id : Id) (db : DB) : option EventRegistration :=
  find (fun r => Nat.eqb (reg_id r) id) (event_registrations db).

(** [findUnique({ where: { eventId_userId: { eventId, userId } } })] *)
Definition eventRegistration_findByEventUser (eventId userId : Id) (db : DB)
  : option EventRegistration :=
  find (fun r => Nat.eqb (reg_eventId r) eventId && Nat.eqb (reg_userId r) userId)
       (event_registrations db).

Definition waitlistEntry_findUnique (id : Id) (db : DB) : option WaitlistEntry :=
  find (fun w => Nat.eqb (wl_id w) id) (waitlist db).

Definition waitlistEntry_findByEventUser (eventId userId : Id) (db : DB)
  : option WaitlistEntry :=
  find (fun w => Nat.eqb (wl_eventId w) eventId && Nat.eqb (wl_userId w) userId)
       (waitlist db).

(** [orderBy: { position: 'asc' }], rows of equal position in table order. *)
Fixpoint insert_by_position (w : WaitlistEntry) (l : list WaitlistEntry)
  : list WaitlistEntry :=
  match l with
  | [] => [w]
  | x :: t => if wl_position w <=? wl_position x then w :: x :: t
              else x :: insert_by_position w t
  end.

Fixpoint orderBy_position_asc (l : list WaitlistEntry) : list WaitlistEntry :=
  match l with
  | [] => []
  | x :: t => insert_by_position x (orderBy_position_asc t)
  end.

Definition is_waiting_for (eventId : Id) (w : WaitlistEntry) : bool :=
  Nat.eqb (wl_eventId w) eventId && WaitlistStatus_eqb (wl_status w) WAITING.

(** [findMany({ where: { eventId, status: 'WAITING' }, orderBy: { position: 'asc' } })] *)
Definition waitlistEntry_findWaiting (eventId : Id) (db : DB) : list WaitlistEntry :=
  orderBy_position_asc (filter (is_waiting_for eventId) (waitlist db)).

(** [findFirst] with the same [where] and [orderBy]. *)
Definition waitlistEntry_findFirstWaiting (eventId : Id) (db : DB) : option WaitlistEntry :=
  hd_error (waitlistEntry_findWaiting eventId db).

Definition is_expired_offer (now : DateTime) (w : WaitlistEntry) : bool :=
  WaitlistStatus_eqb (wl_status w) OFFERED &&
  match wl_expiresAt w with
  | Some t => t <? now
  | None => false
  end.

(** [findMany({ where: { status: 'OFFERED', expiresAt: { lt: now } } })] *)
Definition waitlistEntry_findExpiredOffers (now : DateTime) (db : DB) : list WaitlistEntry :=
  filter (is_expired_offer now) (waitlist db).

(** ** Database triggers *)

(** [UPDATE events SET current_seats = current_seats + 1, updated_at = NOW()
     WHERE id = NEW.event_id], a statement of the trigger on
    [event_registrations]. PL/pgSQL plans it when control first reaches it;
    [events] has no column [current_seats] or [updated_at] and [NEW] no field
    [event_id], so it raises. *)
Definition seats_increment (now : DateTime) (eventId : Id) : Tx unit :=
  fun db =>
    if negb (has_columns events_columns ["current_seats"; "updated_at"; "id"]
             && has_columns event_registrations_columns ["event_id"])
    then (Throw PgUndefinedColumn, db)
    else
      match event_findUnique eventId db with
      | None => (Ok tt, db)
      | Some e =>
          if INT4_MAX <? ev_currentSeats e + 1 then (Throw PgIntegerOutOfRange, db)
          else (Ok tt,
                set_events
                  (update_first (fun e => Nat.eqb (ev_id e) eventId)
                                (fun e => with_seats e (ev_currentSeats e + 1) now)) db)
      end.

(** [UPDATE events SET current_seats = GREATEST(current_seats - 1, 0),
     updated_at = NOW() WHERE id = NEW.event_id] (on delete [OLD.event_id]):
    the same columns, and the same failure. *)
Definition seats_release (now : DateTime) (eventId : Id) : Tx unit :=
  fun db =>
    if negb (has_columns events_columns ["current_seats"; "updated_at"; "id"]
             && has_columns event_registrations_columns ["event_id"])
    then (Throw PgUndefinedColumn, db)
    else
      match event_findUnique eventId db with
      | None => (Ok tt, db)
      | Some e =>
          if ev_currentSeats e - 1 <? INT4_MIN then (Throw PgIntegerOutOfRange, db)
          else (Ok tt,
                set_events
                  (update_first (fun e => Nat.eqb (ev_id e) eventId)
                                (fun e => with_seats e (Z.max (ev_currentSeats e - 1) 0) now))
                  db)
      end.

Inductive TG_OP := TG_INSERT | TG_UPDATE | TG_DELETE.

(** [update_event_seat_count()], fired after each row change of
    [event_registrations]. [OLD] is ignored on insert, [NEW] on delete. The
    conditions read [NEW.status] and [OLD.status], which exist. *)
Definition update_event_seat_count (now : DateTime) (op : TG_OP)
  (OLD NEW : EventRegistration) : Tx unit :=
  match op with
  | TG_INSERT =>
      if RegistrationStatus_eqb (reg_status NEW) CONFIRMED
      then seats_increment now (reg_eventId NEW)
      else ret tt
  | TG_UPDATE =>
      if negb (RegistrationStatus_eqb (reg_status OLD) CONFIRMED)
         && RegistrationStatus_eqb (reg_status NEW) CONFIRMED
      then seats_increment now (reg_eventId NEW)
      else if RegistrationStatus_eqb (reg_status OLD) CONFIRMED
              && (RegistrationStatus_eqb (reg_status NEW) CANCELLED
                  || RegistrationStatus_eqb (reg_status NEW) COMPLETED)
      then seats_release now (reg_eventId NEW)
      else ret tt
  | TG_DELETE =>
      if RegistrationStatus_eqb (reg_status OLD) CONFIRMED
      then seats_release now (reg_eventId OLD)
      else ret tt
  end.

Definition is_live (w : WaitlistEntry) : bool :=
  WaitlistStatus_eqb (wl_status w) WAITING || WaitlistStatus_eqb (wl_status w) OFFERED.

(** [SELECT COALESCE(MAX(position), 0) + 1 FROM waitlist
     WHERE event_id = NEW.event_id AND status IN ('WAITING', 'OFFERED')] *)
Definition next_position (eventId : Id) (db : DB) : Z :=
  coalesce
    (sql_max (map wl_position
                  (filter (fun w => Nat.eqb (wl_eventId w) eventId && is_live w)
                          (waitlist db)))) 0 + 1.

(** [assign_waitlist_position()], fired before each insert into [waitlist].
    Its [SELECT ... FROM waitlist WHERE event_id = NEW.event_id AND status IN
    (...)] names [event_id], which neither [waitlist] nor [NEW] has: it raises
    on every insert, before the row reaches the unique index. *)
Definition assign_waitlist_position (NEW : WaitlistEntry) : Tx WaitlistEntry :=
  fun db =>
    if negb (has_columns waitlist_columns ["position"; "event_id"; "status"])
    then (Throw PgUndefinedColumn, db)
    else
      let p := next_position (wl_eventId NEW) db in
      if INT4_MAX <? p then (Throw PgIntegerOutOfRange, db)
      else (Ok (with_position NEW p), db).

(** ** Writes *)

(** [tx.eventRegistration.create]: the unique index
    [event_registrations_eventId_userId_key] and the two foreign keys are
    checked, the row gets a fresh key and [registeredAt = now], and the seat
    trigger fires. *)
Definition eventRegistration_create (now : DateTime) (eventId userId : Id)
  (status : RegistrationStatus) (paymentStatus : option PaymentStatus)
  (confirmedAt : option DateTime) : Tx EventRegistration :=
  fun db =>
    match eventRegistration_findByEventUser eventId userId db with
    | Some _ => (Throw PrismaUniqueConstraint, db)
    | None =>
        match event_findUnique eventId db, user_findUnique userId db with
        | Some _, Some _ =>
            let r := mkRegistration (fresh_id (map reg_id (event_registrations db)))
                                    eventId userId status paymentStatus None now
                                    confirmedAt None None in
            (_ <- update_event_seat_count now TG_INSERT r r ;; ret r)
              (set_event_registrations (fun l => (l ++ [r])%list) db)
        | _, _ => (Throw PrismaForeignKey, db)
        end
    end.

(** [tx.eventRegistration.update({ where: { id }, data })] *)
Definition eventRegistration_update (now : DateTime) (id : Id)
  (data : EventRegistration -> EventRegistration) : Tx EventRegistration :=
  fun db =>
    match eventRegistration_findUnique id db with
    | None => (Throw PrismaRecordNotFound, db)
    | Some old =>
        let new := data old in
        (_ <- update_event_seat_count now TG_UPDATE old new ;; ret new)
          (set_event_registrations
             (update_first (fun r => Nat.eqb (reg_id r) id) data) db)
    end.

(** [tx.waitlistEntry.create] with [status: 'WAITING', position: 0]: the
    position trigger runs first, then the unique index
    [waitlist_eventId_userId_key] and the foreign keys are checked. *)
Definition waitlistEntry_create (now : DateTime) (eventId userId : Id) (email : string)
  : Tx WaitlistEntry :=
  w <- assign_waitlist_position
         (mkWaitlistEntry 0%nat eventId userId email 0 WAITING None None None now now) ;;
  fun db =>
    match waitlistEntry_findByEventUser eventId userId db with
    | Some _ => (Throw PrismaUniqueConstraint, db)
    | None =>
        match event_findUnique eventId db, user_findUnique userId db with
        | Some _, Some _ =>
            let w' := mkWaitlistEntry (fresh_id (map wl_id (waitlist db)))
                                      eventId userId email (wl_position w) WAITING
                                      None None None now now in
            (Ok w', set_waitlist (fun l => (l ++ [w'])%list) db)
        | _, _ => (Throw PrismaForeignKey, db)
        end
    end.

(** [tx.waitlistEntry.update({ where: { id }, data })]; [updatedAt] is
    refreshed ([@updatedAt]). *)
Definition waitlistEntry_update (now : DateTime) (id : Id)
  (data : WaitlistEntry -> WaitlistEntry) : Tx WaitlistEntry :=
  fun db =>
    match waitlistEntry_findUnique id db with
    | None => (Throw PrismaRecordNotFound, db)
    | Some old =>
        let f := fun w => with_updatedAt (data w) now in
        (Ok (f old), set_waitlist (update_first (fun w => Nat.eqb (wl_id w) id) f) db)
    end.

(** ** Results returned to the callers *)

Inductive RegistrationResultType := RT_registration | RT_checkout | RT_waitlist.

Record RegistrationResult := mkRegistrationResult {
  rr_type : RegistrationResultType;
  rr_registration : option EventRegistration;
  rr_checkoutUrl : option string;
  rr_waitlistEntry : option WaitlistEntry
}.

Inductive AcceptResultType := AT_confirmed | AT_pending.

Record AcceptResult := mkAcceptResult {
  ar_type : AcceptResultType;
  ar_registration : EventRegistration
}.

(** Argument of [stripeService.createEventCheckoutSession]. *)
Record CheckoutParams := mkCheckoutParams {
  cp_userId : Id;
  cp_userEmail : string;
  cp_eventId : Id;
  cp_registrationId : Id;
  cp_eventTitle : string;
  cp_price : option Z;
  cp_stripePriceId : option string
}.

(** ** The clock of the server *)

Definition HOUR : Z := 60 * 60 * 1000.
Definition HOURS_48 : Z := 48 * HOUR.
Definition HOURS_24 : Z := 24 * HOUR.

(** [d.setHours(d.getHours() + n)] works on the local wall clock of the
    server: [addLocalHours n t] is the instant it makes of the instant [t].
    Across a daylight-saving switch 48 local hours are 47 or 49 hours; no
    zone shifts by as much as 48, so the result is not before [t]. *)
Class LocalClock := {
  addLocalHours : Z -> DateTime -> DateTime;
  addLocalHours_48_later : forall t, t <= addLocalHours 48 t
}.

(** A zone without shifts, as UTC is. *)
Definition no_shift {clock : LocalClock} : Prop :=
  forall n t, addLocalHours n t = t + n * HOUR.

Lemma utc_48_later (t : DateTime) : t <= t + 48 * HOUR.
Proof. unfold HOUR. lia. Qed.

Definition utc : LocalClock :=
  {| addLocalHours := fun n t => t + n * HOUR; addLocalHours_48_later := utc_48_later |}.

(** ** events/waitlist.service.ts *)

(** [offerSpot]: [expiresAt] is the clock with 48 added to its local hours. *)
Definition offerSpot {clock : LocalClock} (now : DateTime) (entry : WaitlistEntry) : Tx unit :=
  let expiresAt := addLocalHours 48 now in
  _ <- waitlistEntry_update now (wl_id entry) (data_offered now expiresAt) ;;
  ret tt.

Definition processWaitlist {clock : LocalClock} (now : DateTime) (eventId : Id) : Tx unit :=
  event <- query (event_findUnique eventId) ;;
  match event with
  | None => ret tt
  | Some event =>
      if ev_currentSeats event >=? ev_maxSeats event then ret tt
      else
        nextInLine <- query (waitlistEntry_findFirstWaiting eventId) ;;
        match nextInLine with
        | None => ret tt
        | Some entry => offerSpot now entry
        end
  end.

(** Body of the transaction of [acceptOffer]. *)
Definition acceptOffer_body (now : DateTime) (userId waitlistEntryId : Id) : Tx AcceptResult :=
  entry <- query (waitlistEntry_findUnique waitlistEntryId) ;;
  match entry with
  | None => throw EntryNotFound
  | Some entry =>
      if negb (Nat.eqb (wl_userId entry) userId) then throw NotAuthorized
      else if negb (WaitlistStatus_eqb (wl_status entry) OFFERED) then throw OfferNotActive
      else
        (match wl_expiresAt entry with
         | Some t =>
             if now >? t then
               _ <- waitlistEntry_update now (wl_id entry) (data_responded EXPIRED now) ;;
               throw OfferExpired
             else ret tt
         | None => ret tt
         end) ;;
        event <- query (event_findUnique (wl_eventId entry)) ;;
        match event with
        | None => throw NoCapacity
        | Some event =>
            if ev_currentSeats event >=? ev_maxSeats event then throw NoCapacity
            else
              _ <- waitlistEntry_update now (wl_id entry) (data_responded ACCEPTED now) ;;
              if ev_isFree event then
                registration <- eventRegistration_create now (wl_eventId entry)
                                  (wl_userId entry) CONFIRMED None (Some now) ;;
                ret (mkAcceptResult AT_confirmed registration)
              else
                registration <- eventRegistration_create now (wl_eventId entry)
                                  (wl_userId entry) PENDING (Some PAY_PENDING) None ;;
                ret (mkAcceptResult AT_pending registration)
        end
  end.

Definition acceptOffer (now : DateTime) (userId waitlistEntryId : Id) : Tx AcceptResult :=
  transaction (acceptOffer_body now userId waitlistEntryId).

Definition declineOffer {clock : LocalClock} (now : DateTime) (userId waitlistEntryId : Id)
  : Tx unit :=
  transaction
    (entry <- query (waitlistEntry_findUnique waitlistEntryId) ;;
     match entry with
     | None => throw EntryNotFound
     | Some entry =>
         if negb (Nat.eqb (wl_userId entry) userId) then throw NotAuthorized
         else if negb (WaitlistStatus_eqb (wl_status entry) OFFERED)
         then throw NoOfferToDecline
         else
           _ <- waitlistEntry_update now (wl_id entry) (data_responded DECLINED now) ;;
           processWaitlist now (wl_eventId entry)
     end).

(** The [for] loop of [reorderWaitlistPositions]: entry [i] gets position
    [i + 1]. *)
Fixpoint reorder_loop (now : DateTime) (i : Z) (activeEntries : list WaitlistEntry)
  : Tx unit :=
  match activeEntries with
  | [] => ret tt
  | entry :: rest =>
      _ <- waitlistEntry_update now (wl_id entry) (fun w => with_position w (i + 1)) ;;
      reorder_loop now (i + 1) rest
  end.

Definition reorderWaitlistPositions (now : DateTime) (eventId : Id) : Tx unit :=
  activeEntries <- query (waitlistEntry_findWaiting eventId) ;;
  reorder_loop now 0 activeEntries.

(** The [for] loop of [processExpiredOffers]: one transaction per offer. *)
Fixpoint expire_loop {clock : LocalClock} (now : DateTime)
  (expiredOffers : list WaitlistEntry) (processed : nat) : Tx nat :=
  match expiredOffers with
  | [] => ret processed
  | offer :: rest =>
      _ <- transaction
             (_ <- waitlistEntry_update now (wl_id offer) (data_status EXPIRED) ;;
              _ <- reorderWaitlistPositions now (wl_eventId offer) ;;
              processWaitlist now (wl_eventId offer)) ;;
      expire_loop now rest (S processed)
  end.

Definition processExpiredOffers {clock : LocalClock} (now : DateTime) : Tx nat :=
  expiredOffers <- query (waitlistEntry_findExpiredOffers now) ;;
  expire_loop now expiredOffers 0%nat.

(** ** events/registration.service.ts *)

Section RegistrationService.

(** The payment collaborator: [createEventCheckoutSession] returns the
    checkout URL or throws. *)
Variable createEventCheckoutSession : CheckoutParams -> Outcome string.

Definition validateEventRegistration (now : DateTime) (event : Event) : Tx unit :=
  if negb (String.eqb (ev_status event) "PUBLISHED") then throw OfferingNotOpen
  else match ev_registrationDeadline event with
       | Some deadline => if now >? deadline then throw DeadlinePassed else ret tt
       | None => ret tt
       end.

(** [user!.email]: dereferencing a missing user is a [TypeError]. *)
Definition user_email_of (userId : Id) : Tx string :=
  user <- query (user_findUnique userId) ;;
  match user with
  | Some u => ret (user_email u)
  | None => throw TypeError
  end.

Definition createConfirmedRegistration (now : DateTime) (userId eventId : Id)
  : Tx RegistrationResult :=
  registration <- eventRegistration_create now eventId userId CONFIRMED None (Some now) ;;
  _ <- user_email_of userId ;;
  ret (mkRegistrationResult RT_registration (Some registration) None None).

Definition createPendingRegistration (now : DateTime) (userId eventId : Id) (event : Event)
  : Tx RegistrationResult :=
  registration <- eventRegistration_create now eventId userId PENDING (Some PAY_PENDING) None ;;
  email <- user_email_of userId ;;
  match createEventCheckoutSession
          (mkCheckoutParams userId email eventId (reg_id registration)
                            (ev_title event) (ev_price event) (ev_stripePriceId event)) with
  | Throw e => throw e
  | Ok checkoutUrl =>
      ret (mkRegistrationResult RT_checkout (Some registration) (Some checkoutUrl) None)
  end.

Definition addToWaitlist (now : DateTime) (userId eventId : Id) : Tx RegistrationResult :=
  email <- user_email_of userId ;;
  waitlistEntry <- waitlistEntry_create now eventId userId email ;;
  ret (mkRegistrationResult RT_waitlist None None (Some waitlistEntry)).

(** Body of the transaction of [register]. *)
Definition register_body (now : DateTime) (userId eventId : Id) : Tx RegistrationResult :=
  event <- query (event_findUnique eventId) ;;
  match event with
  | None => throw EventNotFound
  | Some event =>
      _ <- validateEventRegistration now event ;;
      existingRegistration <- query (eventRegistration_findByEventUser eventId userId) ;;
      match existingRegistration with
      | Some r =>
          if negb (RegistrationStatus_eqb (reg_status r) CANCELLED)
          then throw AlreadyRegistered else ret tt
      | None => ret tt
      end ;;
      existingWaitlist <- query (waitlistEntry_findByEventUser eventId userId) ;;
      match existingWaitlist with
      | Some w => if is_live w then throw AlreadyWaitlisted else ret tt
      | None => ret tt
      end ;;
      if ev_currentSeats event >=? ev_maxSeats event then
        addToWaitlist now userId eventId
      else if ev_isFree event then
        createConfirmedRegistration now userId eventId
      else
        createPendingRegistration now userId eventId event
  end.

Definition register (now : DateTime) (userId eventId : Id) : Tx RegistrationResult :=
  transaction (register_body now userId eventId).

End RegistrationService.

Definition confirmPayment (now : DateTime) (registrationId : Id) (stripeSessionId : string)
  : Tx unit :=
  transaction
    (registration <- query (eventRegistration_findUnique registrationId) ;;
     match registration with
     | None => throw RegistrationNotFound
     | Some registration =>
         if negb (RegistrationStatus_eqb (reg_status registration) PENDING)
         then throw RegistrationNotPending
         else
           _ <- eventRegistration_update now registrationId
                  (data_confirmed stripeSessionId now) ;;
           ret tt
     end).

Definition cancelRegistration {clock : LocalClock} (now : DateTime) (userId eventId : Id)
  (reason : option string) : Tx unit :=
  transaction
    (registration <- query (eventRegistration_findByEventUser eventId userId) ;;
     match registration with
     | None => throw CancelNotFound
     | Some registration =>
         if negb (RegistrationStatus_eqb (reg_status registration) PENDING
                  || RegistrationStatus_eqb (reg_status registration) CONFIRMED)
         then throw CancellationNotAllowed
         else
           _ <- eventRegistration_update now (reg_id registration)
                  (data_cancelled now reason) ;;
           if RegistrationStatus_eqb (reg_status registration) CONFIRMED
           then processWaitlist now eventId
           else ret tt
     end).

(** ** cron/cron.controller.ts *)

Definition is_stale_pending (cutoff : DateTime) (r : EventRegistration) : bool :=
  RegistrationStatus_eqb (reg_status r) PENDING && (reg_registeredAt r <? cutoff).

Fixpoint cleanup_loop {clock : LocalClock} (now : DateTime) (stale : list EventRegistration)
  (cleaned : nat) : Tx nat :=
  match stale with
  | [] => ret cleaned
  | registration :: rest =>
      _ <- cancelRegistration now (reg_userId registration) (reg_eventId registration)
             (Some "Payment timeout - auto cancelled") ;;
      cleanup_loop now rest (S cleaned)
  end.

(** [cutoff] is the clock with 24 taken from its local hours. *)
Definition cleanupPendingRegistrations {clock : LocalClock} (now : DateTime) : Tx nat :=
  let cutoff := addLocalHours (-24) now in
  stale <- query (fun db => filter (is_stale_pending cutoff) (event_registrations db)) ;;
  cleanup_loop now stale 0%nat.

(** ** Operation sequences *)

Inductive Op :=
| OpRegister (now : DateTime) (userId eventId : Id)
| OpConfirmPayment (now : DateTime) (registrationId : Id) (stripeSessionId : string)
| OpCancelRegistration (now : DateTime) (userId eventId : Id) (reason : option string)
| OpAcceptOffer (now : DateTime) (userId waitlistEntryId : Id)
| OpDeclineOffer (now : DateTime) (userId waitlistEntryId : Id)
| OpProcessExpiredOffers (now : DateTime)
| OpCleanupPendingRegistrations (now : DateTime).

(** The database an operation leaves behind, whether it returned or threw. *)
Definition step {clock : LocalClock} (checkout : CheckoutParams -> Outcome string) (db : DB)
  (op : Op) : DB :=
  match op with
  | OpRegister now u e => committed (register checkout now u e db)
  | OpConfirmPayment now r s => committed (confirmPayment now r s db)
  | OpCancelRegistration now u e reason => committed (cancelRegistration now u e reason db)
  | OpAcceptOffer now u w => committed (acceptOffer now u w db)
  | OpDeclineOffer now u w => committed (declineOffer now u w db)
  | OpProcessExpiredOffers now => committed (processExpiredOffers now db)
  | OpCleanupPendingRegistrations now => committed (cleanupPendingRegistrations now db)
  end.

Definition run {clock : LocalClock} (checkout : CheckoutParams -> Outcome string) (db : DB)
  (ops : list Op) : DB :=
  fold_left (step checkout) ops db.

Definition seats_of (eventId : Id) (db : DB) : option Z :=
  option_map ev_currentSeats (event_findUnique eventId db).

Definition capacity_of (eventId : Id) (db : DB) : option Z :=
  option_map ev_maxSeats (event_findUnique eventId db).

(** Positions of the live ([WAITING] / [OFFERED]) entries of an event, in
    the order the entries joined the queue. *)
Definition live_positions (eventId : Id) (db : DB) : list Z :=
  map wl_position
      (filter (fun w => Nat.eqb (wl_eventId w) eventId && is_live w) (waitlist db)).


(** ** A small organisation used by the examples *)

Module Sample.

Definition alice : Id := 1%nat.
Definition bob : Id := 2%nat.
Definition carol : Id := 3%nat.

Definition picnic : Id := 10%nat.   (* free, one seat *)
Definition gala : Id := 20%nat.     (* paid, one seat *)

Definition db0 : DB :=
  mkDB [ mkUser alice "alice@example.org";
         mkUser bob "bob@example.org";
         mkUser carol "carol@example.org" ]
       [ mkEvent picnic "Picnic" None 1 0 true None None "PUBLISHED" 0;
         mkEvent gala "Gala" None 1 0 false (Some 5000) None "PUBLISHED" 0 ]
       [] [].

Definition checkout_ok (p : CheckoutParams) : Outcome string :=
  Ok "https://checkout.stripe.com/pay/cs_test".

Definition checkout_down (p : CheckoutParams) : Outcome string :=
  Throw CheckoutCreationFailed.

End Sample.

(** ** States and computations named by the statements below *)

(** The registration [rid] marked confirmed and paid. *)
Definition confirmed_db (now : DateTime) (rid : Id) (sid : string) (db : DB) : DB :=
  set_event_registrations
    (update_first (fun r => Nat.eqb (reg_id r) rid) (data_confirmed sid now)) db.

(** The registration [rid] marked cancelled. *)
Definition cancelled_db (now : DateTime) (rid : Id) (reason : option string) (db : DB) : DB :=
  set_event_registrations
    (update_first (fun r => Nat.eqb (reg_id r) rid) (data_cancelled now reason)) db.

(** The row [offerSpot] writes for [entry]. *)
Definition offered_entry {clock : LocalClock} (now : DateTime) (entry : WaitlistEntry)
  : WaitlistEntry :=
  with_updatedAt (data_offered now (addLocalHours 48 now) entry) now.

Definition is_offered (w : WaitlistEntry) : bool := WaitlistStatus_eqb (wl_status w) OFFERED.

(** Step 6 of [register]: the two seat-available branches. *)
Definition register_seat_available (checkout : CheckoutParams -> Outcome string)
  (now : DateTime) (userId eventId : Id) (event : Event) : Tx RegistrationResult :=
  if ev_isFree event then createConfirmedRegistration now userId eventId
  else createPendingRegistration checkout now userId eventId event.

Definition is_confirmPayment (op : Op) : bool :=
  match op with
  | OpConfirmPayment _ _ _ => true
  | _ => false
  end.

(** Steps 5 and 6 of [register]: what happens once the guards have passed. *)
Definition register_branch (checkout : CheckoutParams -> Outcome string)
  (now : DateTime) (userId eventId : Id) (event : Event) : Tx RegistrationResult :=
  if ev_currentSeats event >=? ev_maxSeats event then addToWaitlist now userId eventId
  else register_seat_available checkout now userId eventId event.

(** The writes of [acceptOffer] once its guards have passed. *)
Definition acceptOffer_writes (now : DateTime) (entry : WaitlistEntry) (event : Event)
  : Tx AcceptResult :=
  _ <- waitlistEntry_update now (wl_id entry) (data_responded ACCEPTED now) ;;
  if ev_isFree event then
    registration <- eventRegistration_create now (wl_eventId entry)
                      (wl_userId entry) CONFIRMED None (Some now) ;;
    ret (mkAcceptResult AT_confirmed registration)
  else
    registration <- eventRegistration_create now (wl_eventId entry)
                      (wl_userId entry) PENDING (Some PAY_PENDING) None ;;
    ret (mkAcceptResult AT_pending registration).

(** ** The specification's reading of [acceptOffer] *)






(** ** Seat-counter invariants *)

(** No event has a negative seat counter. *)
Definition seats_nonneg (db : DB) : Prop :=
  Forall (fun e => 0 <= ev_currentSeats e) (events db).

(** The invariant of the specification: [0 <= currentSeats <= maxSeats] for
    every event. *)
Definition seat_bounds (db : DB) : Prop :=
  Forall (fun e => 0 <= ev_currentSeats e <= ev_maxSeats e) (events db).

(** A computation keeps an invariant of the database, whether it returns or
    throws. *)
Definition preserves {A} (I : DB -> Prop) (m : Tx A) : Prop :=
  forall db, I db -> I (snd (m db)).

(** ** Further sample states *)

(** States whose rows are given as they stand in the tables. *)
Module Scenario.
Import Sample.

Definition dave : Id := 4%nat.
Definition erin : Id := 5%nat.
Definition frank : Id := 6%nat.
Definition workshop : Id := 30%nat.

(** Alice left a checkout for the gala open at 100: her registration is
    [PENDING]. *)
Definition gala_pending : DB :=
  mkDB (users db0) (events db0)
       [ mkRegistration 1%nat gala alice PENDING (Some PAY_PENDING) None 100 None None None ]
       [].

(** Alice holds the one seat of the picnic. *)
Definition picnic_taken : DB :=
  mkDB (users db0)
       [ mkEvent picnic "Picnic" None 1 1 true None None "PUBLISHED" 100;
         mkEvent gala "Gala" None 1 0 false (Some 5000) None "PUBLISHED" 0 ]
       [ mkRegistration 1%nat picnic alice CONFIRMED None None 100 (Some 100) None None ]
       [].

(** The seat of the picnic is free; Bob holds an offer made at 400 that runs
    out at [400 + 48 h], Carol waits behind him. *)
Definition picnic_offer : DB :=
  mkDB (users db0) (events db0) []
       [ mkWaitlistEntry 1%nat picnic bob "bob@example.org" 1 OFFERED (Some 400)
                         (Some (400 + HOURS_48)) None 200 400;
         mkWaitlistEntry 2%nat picnic carol "carol@example.org" 2 WAITING None None None
                         300 300 ].


(** A workshop with two seats, both free; Carol and Dave hold offers made at
    1000 and 2000, Erin and Frank wait. *)
Definition workshop_two_offers : DB :=
  mkDB [ mkUser alice "alice@example.org"; mkUser bob "bob@example.org";
         mkUser carol "carol@example.org"; mkUser dave "dave@example.org";
         mkUser erin "erin@example.org"; mkUser frank "frank@example.org" ]
       [ mkEvent workshop "Workshop" None 2 0 true None None "PUBLISHED" 0 ]
       []
       [ mkWaitlistEntry 1%nat workshop carol "carol@example.org" 1 OFFERED (Some 1000)
                         (Some (1000 + HOURS_48)) None 300 1000;
         mkWaitlistEntry 2%nat workshop dave "dave@example.org" 2 OFFERED (Some 2000)
                         (Some (2000 + HOURS_48)) None 400 2000;
         mkWaitlistEntry 3%nat workshop erin "erin@example.org" 3 WAITING None None None
                         500 500;
         mkWaitlistEntry 4%nat workshop frank "frank@example.org" 4 WAITING None None None
                         600 600 ].

(** The seat of the picnic is free; Bob and Carol wait, nobody holds an
    offer. *)
Definition picnic_queue : DB :=
  mkDB (users db0) (events db0) []
       [ mkWaitlistEntry 1%nat picnic bob "bob@example.org" 1 WAITING None None None
                         200 200;
         mkWaitlistEntry 2%nat picnic carol "carol@example.org" 2 WAITING None None None
                         300 300 ].

(** Alice cancelled her pending registration for the gala at 150 and now
    holds the offer for its seat. *)
Definition gala_cancelled_offer : DB :=
  mkDB (users db0) (events db0)
       [ mkRegistration 1%nat gala alice CANCELLED (Some PAY_PENDING) None 100 None
                        (Some 150) None ]
       [ mkWaitlistEntry 1%nat gala alice "alice@example.org" 1 OFFERED (Some 400)
                         (Some (400 + HOURS_48)) None 300 400 ].

(** Alice attended the picnic: her registration is [COMPLETED]. *)
Definition picnic_completed : DB :=
  mkDB (users db0) (events db0)
       [ mkRegistration 1%nat picnic alice COMPLETED None None 100 (Some 100) None None ]
       [].

End Scenario.
(** ** Invariants of the reachable states *)

(** A transaction body keeps an invariant when it returns; what it leaves
    behind when it throws is rolled back and does not matter. *)
Definition preserves_ok {A} (I : DB -> Prop) (m : Tx A) : Prop :=
  forall db, I db ->
    match m db with
    | (Ok _, db') => I db'
    | (Throw _, _) => True
    end.

(** A [data] argument that leaves the keys of a waitlist row alone. *)
Definition keeps_keys (data : WaitlistEntry -> WaitlistEntry) : Prop :=
  forall w, wl_id (data w) = wl_id w /\ wl_eventId (data w) = wl_eventId w /\
            wl_userId (data w) = wl_userId w.

Definition reg_key (r : EventRegistration) : Id * Id := (reg_eventId r, reg_userId r).

Definition wl_key (w : WaitlistEntry) : Id * Id := (wl_eventId w, wl_userId w).

(** The primary keys of [event_registrations] and [waitlist] and the unique
    indexes [event_registrations_eventId_userId_key] and
    [waitlist_eventId_userId_key]. *)
Definition keys_unique (db : DB) : Prop :=
  NoDup (map reg_id (event_registrations db)) /\
  NoDup (map reg_key (event_registrations db)) /\
  NoDup (map wl_id (waitlist db)) /\
  NoDup (map wl_key (waitlist db)).

Definition is_confirmed_for (eventId : Id) (r : EventRegistration) : bool :=
  Nat.eqb (reg_eventId r) eventId && RegistrationStatus_eqb (reg_status r) CONFIRMED.

(** Number of [CONFIRMED] registrations of an event. *)
Definition confirmed_count (eventId : Id) (db : DB) : Z :=
  Z.of_nat (List.length (filter (is_confirmed_for eventId) (event_registrations db))).

(** The denormalised counter of every event equals the number of its
    [CONFIRMED] registrations. *)
Definition seats_match (db : DB) : Prop :=
  forall e ev, event_findUnique e db = Some ev -> ev_currentSeats ev = confirmed_count e db.


(** [d] has the events of [start], row for row, and as many [CONFIRMED]
    registrations for every event. *)
Definition same_seats (start d : DB) : Prop :=
  events d = events start /\ forall e, confirmed_count e d = confirmed_count e start.

(** The number of [CONFIRMED] registrations of every event is within its
    capacity: the invariant of the specification read on the rows. *)
Definition confirmed_within_capacity (db : DB) : Prop :=
  forall e ev, event_findUnique e db = Some ev ->
    0 <= confirmed_count e db <= ev_maxSeats ev.

(** ** Evaluation on the sample states *)

(** Closed facts about a sample state, settled by evaluating the services. *)
Ltac by_evaluation :=
  first
    [ vm_compute; reflexivity
    | intros; vm_compute; reflexivity
    | vm_compute; intros; discriminate
    | vm_compute; intros ? H; injection H as <-; reflexivity
    | vm_compute; intros ? H; injection H as <-; vm_compute; intros; discriminate
    | split; by_evaluation ].

Ltac NoDup_by_evaluation :=
  vm_compute; repeat constructor; simpl; intuition discriminate.
(** * Properties *)

Import Sample Scenario.

(** ** Tables *)

Lemma find_update_first {A} (p : A -> bool) (f : A -> A) (l : list A) :
  (forall x, p (f x) = p x) ->
  find p (update_first p f l) = option_map f (find p l).
Proof.
  intros Hp. induction l as [|x t IH]; simpl; [reflexivity|].
  destruct (p x) eqn:E; simpl.
  - rewrite Hp, E. reflexivity.
  - rewrite E. exact IH.
Qed.

Lemma update_first_split {A} (p : A -> bool) (f : A -> A) (l : list A) (x : A) :
  find p l = Some x ->
  exists l1 l2, l = (l1 ++ x :: l2)%list /\
                update_first p f l = (l1 ++ f x :: l2)%list /\
                forallb (fun y => negb (p y)) l1 = true.
Proof.
  induction l as [|y t IH]; simpl; [discriminate|].
  destruct (p y) eqn:E.
  - intros [= ->]. now exists [], t.
  - intros H. destruct (IH H) as (l1 & l2 & -> & -> & Hl1).
    exists (y :: l1), l2. simpl. now rewrite E, Hl1.
Qed.

Lemma find_key_NoDup {A} (key : A -> Id) (l : list A) (x : A) :
  NoDup (map key l) -> In x l ->
  find (fun y => Nat.eqb (key y) (key x)) l = Some x.
Proof.
  induction l as [|y t IH]; simpl; [tauto|].
  intros Hnd [->|Hin].
  - now rewrite Nat.eqb_refl.
  - inversion Hnd as [|? ? Hy Ht]; subst.
    destruct (Nat.eqb_spec (key y) (key x)) as [E|_]; [|now apply IH].
    exfalso. apply Hy. rewrite E. now apply in_map.
Qed.

Lemma find_update_first_other {A} (p q : A -> bool) (f : A -> A) (l : list A) :
  (forall x, q (f x) = q x) ->
  (forall x, p x = true -> q x = false) ->
  find q (update_first p f l) = find q l.
Proof.
  intros Hq Hpq. induction l as [|x t IH]; simpl; [reflexivity|].
  destruct (p x) eqn:E; simpl.
  - now rewrite Hq, (Hpq x E).
  - destruct (q x); [reflexivity|exact IH].
Qed.

(** ** Transactions *)

Lemma bind_query {A B} (f : DB -> A) (k : A -> Tx B) (db : DB) :
  (x <- query f ;; k x) db = k (f db) db.
Proof. reflexivity. Qed.

Lemma bind_ret {A B} (a : A) (k : A -> Tx B) (db : DB) :
  (x <- ret a ;; k x) db = k a db.
Proof. reflexivity. Qed.

Lemma bind_throw {A B} (e : Error) (k : A -> Tx B) (db : DB) :
  (x <- throw e ;; k x) db = (Throw e, db).
Proof. reflexivity. Qed.

Lemma transaction_rolls_back {A} (body : Tx A) (db db' : DB) (e : Error) :
  body db = (Throw e, db') -> transaction body db = (Throw e, db).
Proof. unfold transaction. now intros ->. Qed.

Lemma transaction_throw_unchanged {A} (body : Tx A) (db db' : DB) (e : Error) :
  transaction body db = (Throw e, db') -> db' = db.
Proof.
  unfold transaction. destruct (body db) as [[a|e'] d]; intros [=]; congruence.
Qed.


(** ** The triggers on the migrated schema *)

(** The statement of the seat trigger names columns that [events] and
    [event_registrations] do not have: it raises wherever control reaches
    it. *)
Lemma seats_increment_raises now e db :
  seats_increment now e db = (Throw PgUndefinedColumn, db).
Proof. reflexivity. Qed.

Lemma seats_release_raises now e db :
  seats_release now e db = (Throw PgUndefinedColumn, db).
Proof. reflexivity. Qed.

Lemma assign_waitlist_position_raises NEW db :
  assign_waitlist_position NEW db = (Throw PgUndefinedColumn, db).
Proof. reflexivity. Qed.

(** The seat trigger never writes: it returns without a statement, or it
    raises. *)
Lemma update_event_seat_count_cases now op old new db :
  update_event_seat_count now op old new db = (Ok tt, db) \/
  update_event_seat_count now op old new db = (Throw PgUndefinedColumn, db).
Proof.
  unfold update_event_seat_count.
  destruct op, (reg_status old), (reg_status new); simpl; auto.
Qed.

(** On an update it returns unless the row becomes [CONFIRMED] or stops
    being it. *)
Lemma update_event_seat_count_update now old new db :
  update_event_seat_count now TG_UPDATE old new db =
  if (negb (RegistrationStatus_eqb (reg_status old) CONFIRMED)
      && RegistrationStatus_eqb (reg_status new) CONFIRMED)
     || (RegistrationStatus_eqb (reg_status old) CONFIRMED
         && (RegistrationStatus_eqb (reg_status new) CANCELLED
             || RegistrationStatus_eqb (reg_status new) COMPLETED))
  then (Throw PgUndefinedColumn, db) else (Ok tt, db).
Proof.
  unfold update_event_seat_count.
  destruct (reg_status old), (reg_status new); reflexivity.
Qed.

(** ** The writes of the Prisma client *)

(** No waitlist row is ever inserted. *)
Lemma waitlistEntry_create_raises now e u email db :
  waitlistEntry_create now e u email db = (Throw PgUndefinedColumn, db).
Proof. reflexivity. Qed.

(** A registration is inserted when the pair is new, both foreign keys
    resolve and the row is not [CONFIRMED]. *)
Lemma eventRegistration_create_ok now e u st ps ca db r db' :
  eventRegistration_create now e u st ps ca db = (Ok r, db') ->
  eventRegistration_findByEventUser e u db = None /\
  (exists ev, event_findUnique e db = Some ev) /\
  (exists usr, user_findUnique u db = Some usr) /\
  st <> CONFIRMED /\
  r = mkRegistration (fresh_id (map reg_id (event_registrations db))) e u st ps None now
                     ca None None /\
  db' = set_event_registrations (fun l => (l ++ [r])%list) db.
Proof.
  unfold eventRegistration_create.
  destruct (eventRegistration_findByEventUser e u db); [discriminate|].
  destruct (event_findUnique e db) as [ev|]; [|discriminate].
  destruct (user_findUnique u db) as [usr|]; [|discriminate].
  unfold bind, update_event_seat_count. cbn [reg_status].
  destruct st; cbn; intros H; try discriminate; injection H as <- <-;
    (split; [reflexivity|]); (split; [eauto|]); (split; [eauto|]);
    (split; [discriminate|]); split; reflexivity.
Qed.


(** A [CONFIRMED] row is never inserted: when the indexes and foreign keys
    let it pass, the seat trigger raises. *)
Lemma eventRegistration_create_confirmed now e u ps ca db :
  exists err d, eventRegistration_create now e u CONFIRMED ps ca db = (Throw err, d).
Proof.
  unfold eventRegistration_create.
  destruct (eventRegistration_findByEventUser e u db); [eauto|].
  destruct (event_findUnique e db); [|eauto].
  destruct (user_findUnique u db); [|eauto].
  unfold bind, update_event_seat_count. cbn. eauto.
Qed.

Lemma eventRegistration_create_confirmed_raises now e u ps ca db ev usr :
  eventRegistration_findByEventUser e u db = None ->
  event_findUnique e db = Some ev ->
  user_findUnique u db = Some usr ->
  exists d, eventRegistration_create now e u CONFIRMED ps ca db = (Throw PgUndefinedColumn, d).
Proof.
  intros Hr Hev Husr. unfold eventRegistration_create. rewrite Hr, Hev, Husr.
  unfold bind, update_event_seat_count. cbn. eauto.
Qed.

(** An update of a registration returns when the row exists and its status
    neither becomes [CONFIRMED] nor leaves it for [CANCELLED] or
    [COMPLETED]. *)
Lemma eventRegistration_update_ok now id data db new db' :
  eventRegistration_update now id data db = (Ok new, db') ->
  exists old,
    eventRegistration_findUnique id db = Some old /\ new = data old /\
    db' = set_event_registrations (update_first (fun r => Nat.eqb (reg_id r) id) data) db /\
    (reg_status new = CONFIRMED -> reg_status old = CONFIRMED) /\
    (reg_status old = CONFIRMED -> reg_status new = CONFIRMED \/ reg_status new = PENDING).
Proof.
  unfold eventRegistration_update.
  destruct (eventRegistration_findUnique id db) as [old|]; [|discriminate].
  unfold bind. rewrite update_event_seat_count_update.
  destruct (reg_status old) eqn:Ho, (reg_status (data old)) eqn:Hn; cbn;
    intros H; try discriminate; injection H as <- <-;
    exists old; rewrite ?Hn; repeat split; auto; try discriminate;
    intros E; try congruence; auto.
Qed.

Lemma waitlistEntry_update_events now id data db r db' :
  waitlistEntry_update now id data db = (r, db') ->
  events db' = events db /\ event_registrations db' = event_registrations db /\
  users db' = users db.
Proof.
  unfold waitlistEntry_update.
  destruct (waitlistEntry_findUnique id db); intros [= <- <-]; repeat split.
Qed.
Lemma validateEventRegistration_open now ev db :
  ev_status ev = "PUBLISHED" ->
  (forall d, ev_registrationDeadline ev = Some d -> now <= d) ->
  validateEventRegistration now ev db = (Ok tt, db).
Proof.
  intros Hs Hd. unfold validateEventRegistration. rewrite Hs. simpl.
  destruct (ev_registrationDeadline ev) as [d|]; [|reflexivity].
  specialize (Hd d eq_refl).
  destruct (Z.gtb_spec now d); [lia|reflexivity].
Qed.

Lemma validateEventRegistration_pure now ev db :
  snd (validateEventRegistration now ev db) = db.
Proof.
  unfold validateEventRegistration.
  destruct (negb _); [reflexivity|].
  destruct (ev_registrationDeadline ev) as [d|]; [|reflexivity].
  destruct (now >? d); reflexivity.
Qed.


(** ** Invariants through the transaction monad *)

Section Preserves.

Variable I : DB -> Prop.

Lemma preserves_ret {A} (a : A) : preserves I (ret a).
Proof. intros db H. exact H. Qed.

Lemma preserves_throw {A} (e : Error) : preserves I (@throw A e).
Proof. intros db H. exact H. Qed.

Lemma preserves_query {A} (f : DB -> A) : preserves I (query f).
Proof. intros db H. exact H. Qed.

Lemma preserves_bind {A B} (m : Tx A) (k : A -> Tx B) :
  preserves I m -> (forall a, preserves I (k a)) -> preserves I (bind m k).
Proof.
  intros Hm Hk db H. unfold bind. specialize (Hm db H).
  destruct (m db) as [[a|e] db']; simpl in *; [now apply Hk|exact Hm].
Qed.

Lemma preserves_transaction {A} (m : Tx A) :
  preserves I m -> preserves I (transaction m).
Proof.
  intros Hm db H. unfold transaction. specialize (Hm db H).
  destruct (m db) as [[a|e] db']; simpl in *; assumption.
Qed.

End Preserves.



(** ** Invariants through transaction bodies *)

Section PreservesOk.

Variable I : DB -> Prop.

Lemma preserves_ok_ret {A} (a : A) : preserves_ok I (ret a).
Proof. intros db H. exact H. Qed.

Lemma preserves_ok_throw {A} (e : Error) : preserves_ok I (@throw A e).
Proof. intros db H. exact Logic.I. Qed.

Lemma preserves_ok_query {A} (f : DB -> A) : preserves_ok I (query f).
Proof. intros db H. exact H. Qed.

Lemma preserves_ok_bind {A B} (m : Tx A) (k : A -> Tx B) :
  preserves_ok I m -> (forall a, preserves_ok I (k a)) -> preserves_ok I (bind m k).
Proof.
  intros Hm Hk db H. unfold bind. specialize (Hm db H).
  destruct (m db) as [[a|e] db']; [now apply Hk|exact Logic.I].
Qed.

Lemma preserves_transaction_ok {A} (m : Tx A) :
  preserves_ok I m -> preserves I (transaction m).
Proof.
  intros Hm db H. unfold transaction. specialize (Hm db H).
  destruct (m db) as [[a|e] db']; simpl; assumption.
Qed.

End PreservesOk.
(** Every service keeps an invariant that the writes of the Prisma client
    keep when they return; the insert into [waitlist] never does. *)
Section ServicesKeep.

Context {clock : LocalClock}.
Variable I : DB -> Prop.
Hypothesis I_create : forall now e u st ps ca,
  preserves_ok I (eventRegistration_create now e u st ps ca).
Hypothesis I_confirm : forall now id sid,
  preserves_ok I (eventRegistration_update now id (data_confirmed sid now)).
Hypothesis I_cancel : forall now id reason,
  preserves_ok I (eventRegistration_update now id (data_cancelled now reason)).
Hypothesis I_wl_update : forall now id data,
  keeps_keys data -> preserves_ok I (waitlistEntry_update now id data).

Lemma keeps_keys_offered a b : keeps_keys (data_offered a b).
Proof. intros w. repeat split. Qed.

Lemma keeps_keys_responded s a : keeps_keys (data_responded s a).
Proof. intros w. repeat split. Qed.

Lemma keeps_keys_status s : keeps_keys (data_status s).
Proof. intros w. repeat split. Qed.

Lemma keeps_keys_position p : keeps_keys (fun w => with_position w p).
Proof. intros w. repeat split. Qed.

Lemma keep_processWaitlist now e : preserves_ok I (processWaitlist now e).
Proof.
  unfold processWaitlist.
  apply preserves_ok_bind; [apply preserves_ok_query|intros [ev|]; [|apply preserves_ok_ret]].
  destruct (ev_currentSeats ev >=? ev_maxSeats ev); [apply preserves_ok_ret|].
  apply preserves_ok_bind; [apply preserves_ok_query|intros [w|]; [|apply preserves_ok_ret]].
  unfold offerSpot. apply preserves_ok_bind; [|intros; apply preserves_ok_ret].
  apply I_wl_update, keeps_keys_offered.
Qed.

Lemma keep_reorder_loop now entries : forall i, preserves_ok I (reorder_loop now i entries).
Proof.
  induction entries as [|w t IH]; intros i; simpl; [apply preserves_ok_ret|].
  apply preserves_ok_bind; [apply I_wl_update, keeps_keys_position|intros _; apply IH].
Qed.

Lemma keep_declineOffer now u wid : preserves I (declineOffer now u wid).
Proof.
  unfold declineOffer. apply preserves_transaction_ok.
  apply preserves_ok_bind; [apply preserves_ok_query|intros [w|]; [|apply preserves_ok_throw]].
  destruct (negb _); [apply preserves_ok_throw|].
  destruct (negb _); [apply preserves_ok_throw|].
  apply preserves_ok_bind;
    [apply I_wl_update, keeps_keys_responded|intros _; apply keep_processWaitlist].
Qed.

Lemma keep_expire_loop now offers : forall n, preserves I (expire_loop now offers n).
Proof.
  induction offers as [|w t IH]; intros n; simpl; [apply preserves_ret|].
  apply preserves_bind; [|intros _; apply IH].
  apply preserves_transaction_ok.
  apply preserves_ok_bind; [apply I_wl_update, keeps_keys_status|intros _].
  apply preserves_ok_bind; [|intros _; apply keep_processWaitlist].
  unfold reorderWaitlistPositions.
  apply preserves_ok_bind; [apply preserves_ok_query|intros l; apply keep_reorder_loop].
Qed.

Lemma keep_processExpiredOffers now : preserves I (processExpiredOffers now).
Proof.
  unfold processExpiredOffers.
  apply preserves_bind; [apply preserves_query|intros l; apply keep_expire_loop].
Qed.

Lemma keep_acceptOffer now u wid : preserves I (acceptOffer now u wid).
Proof.
  unfold acceptOffer, acceptOffer_body. apply preserves_transaction_ok.
  apply preserves_ok_bind; [apply preserves_ok_query|intros [w|]; [|apply preserves_ok_throw]].
  destruct (negb _); [apply preserves_ok_throw|].
  destruct (negb _); [apply preserves_ok_throw|].
  apply preserves_ok_bind.
  { destruct (wl_expiresAt w) as [t|]; [|apply preserves_ok_ret].
    destruct (now >? t); [|apply preserves_ok_ret].
    apply preserves_ok_bind;
      [apply I_wl_update, keeps_keys_responded|intros; apply preserves_ok_throw]. }
  intros _.
  apply preserves_ok_bind; [apply preserves_ok_query|intros [ev|]; [|apply preserves_ok_throw]].
  destruct (ev_currentSeats ev >=? ev_maxSeats ev); [apply preserves_ok_throw|].
  apply preserves_ok_bind; [apply I_wl_update, keeps_keys_responded|intros _].
  destruct (ev_isFree ev);
    (apply preserves_ok_bind; [apply I_create|intros; apply preserves_ok_ret]).
Qed.

Lemma keep_user_email_of u : preserves_ok I (user_email_of u).
Proof.
  unfold user_email_of.
  apply preserves_ok_bind; [apply preserves_ok_query|intros [usr|]];
    [apply preserves_ok_ret|apply preserves_ok_throw].
Qed.

Lemma keep_register checkout now u e : preserves I (register checkout now u e).
Proof.
  unfold register, register_body. apply preserves_transaction_ok.
  apply preserves_ok_bind; [apply preserves_ok_query|intros [ev|]; [|apply preserves_ok_throw]].
  apply preserves_ok_bind.
  { intros db H. pose proof (validateEventRegistration_pure now ev db) as Hp.
    destruct (validateEventRegistration now ev db) as [[[]|err] d]; [|exact Logic.I].
    simpl in Hp. now subst d. }
  intros _.
  apply preserves_ok_bind; [apply preserves_ok_query|intros r].
  apply preserves_ok_bind.
  { destruct r as [r|]; [|apply preserves_ok_ret].
    destruct (negb _); [apply preserves_ok_throw|apply preserves_ok_ret]. }
  intros _.
  apply preserves_ok_bind; [apply preserves_ok_query|intros w].
  apply preserves_ok_bind.
  { destruct w as [w|]; [|apply preserves_ok_ret].
    destruct (is_live w); [apply preserves_ok_throw|apply preserves_ok_ret]. }
  intros _.
  destruct (ev_currentSeats ev >=? ev_maxSeats ev).
  { unfold addToWaitlist.
    apply preserves_ok_bind; [apply keep_user_email_of|intros email].
    apply preserves_ok_bind; [|intros; apply preserves_ok_ret].
    intros d _. now rewrite waitlistEntry_create_raises. }
  destruct (ev_isFree ev).
  - unfold createConfirmedRegistration.
    apply preserves_ok_bind; [apply I_create|intros r'].
    apply preserves_ok_bind; [apply keep_user_email_of|intros; apply preserves_ok_ret].
  - unfold createPendingRegistration.
    apply preserves_ok_bind; [apply I_create|intros r'].
    apply preserves_ok_bind; [apply keep_user_email_of|intros email].
    destruct (checkout _); [apply preserves_ok_ret|apply preserves_ok_throw].
Qed.

Lemma keep_confirmPayment now rid sid : preserves I (confirmPayment now rid sid).
Proof.
  unfold confirmPayment. apply preserves_transaction_ok.
  apply preserves_ok_bind; [apply preserves_ok_query|intros [r|]; [|apply preserves_ok_throw]].
  destruct (negb _); [apply preserves_ok_throw|].
  apply preserves_ok_bind; [apply I_confirm|intros; apply preserves_ok_ret].
Qed.

Lemma keep_cancelRegistration now u e reason :
  preserves I (cancelRegistration now u e reason).
Proof.
  unfold cancelRegistration. apply preserves_transaction_ok.
  apply preserves_ok_bind; [apply preserves_ok_query|intros [r|]; [|apply preserves_ok_throw]].
  destruct (negb _); [apply preserves_ok_throw|].
  apply preserves_ok_bind; [apply I_cancel|intros _].
  destruct (RegistrationStatus_eqb _ _); [apply keep_processWaitlist|apply preserves_ok_ret].
Qed.

Lemma keep_cleanupPendingRegistrations now :
  preserves I (cleanupPendingRegistrations now).
Proof.
  unfold cleanupPendingRegistrations.
  apply preserves_bind; [apply preserves_query|intros l].
  generalize 0%nat. induction l as [|r t IH]; intros n; simpl; [apply preserves_ret|].
  apply preserves_bind; [apply keep_cancelRegistration|intros _; apply IH].
Qed.

Lemma keep_step checkout op : forall db, I db -> I (step checkout db op).
Proof.
  intros db H. destruct op; simpl; unfold committed.
  - now apply keep_register.
  - now apply keep_confirmPayment.
  - now apply keep_cancelRegistration.
  - now apply keep_acceptOffer.
  - now apply keep_declineOffer.
  - now apply keep_processExpiredOffers.
  - now apply keep_cleanupPendingRegistrations.
Qed.

Lemma keep_run checkout ops : forall db, I db -> I (run checkout db ops).
Proof.
  unfold run. induction ops as [|op t IH]; intros db H; simpl; [exact H|].
  apply IH. now apply keep_step.
Qed.

End ServicesKeep.

(** ** Primary keys and unique indexes *)

Lemma fresh_id_not_in ids : ~ In (fresh_id ids) ids.
Proof.
  unfold fresh_id. intros Hin.
  assert (H : Forall (fun k => (k <= list_max ids)%nat) ids) by now apply list_max_le.
  rewrite Forall_forall in H. specialize (H _ Hin). lia.
Qed.

Lemma NoDup_snoc {A} (l : list A) (x : A) :
  NoDup l -> ~ In x l -> NoDup (l ++ [x]).
Proof.
  intros Hl Hx. apply NoDup_app; [exact Hl|repeat constructor; intros []|].
  intros a Ha [<-|[]]. now apply Hx.
Qed.

Lemma map_update_first {A B} (g : A -> B) (p : A -> bool) (f : A -> A) (l : list A) :
  (forall x, g (f x) = g x) -> map g (update_first p f l) = map g l.
Proof.
  intros Hg. induction l as [|x t IH]; simpl; [reflexivity|].
  destruct (p x); simpl; [now rewrite Hg|now rewrite IH].
Qed.

Lemma find_pair_None {A} (ke ku : A -> Id) (e u : Id) (l : list A) :
  find (fun x => Nat.eqb (ke x) e && Nat.eqb (ku x) u) l = None ->
  ~ In (e, u) (map (fun x => (ke x, ku x)) l).
Proof.
  intros Hf Hin. apply in_map_iff in Hin. destruct Hin as (x & [= He Hu] & Hx).
  apply (find_none _ _ Hf) in Hx. now rewrite He, Hu, !Nat.eqb_refl in Hx.
Qed.

Lemma keys_unique_create now e u st ps ca :
  preserves_ok keys_unique (eventRegistration_create now e u st ps ca).
Proof.
  intros db (Hid & Hkey & Hwid & Hwkey).
  destruct (eventRegistration_create now e u st ps ca db) as [[r|err] d] eqn:Hc;
    [|exact Logic.I].
  destruct (eventRegistration_create_ok _ _ _ _ _ _ _ _ _ Hc) as (Hf & _ & _ & _ & Hr & ->).
  unfold keys_unique. simpl. rewrite !map_app. simpl.
  repeat split; try assumption.
  - apply NoDup_snoc; [exact Hid|]. rewrite Hr. apply fresh_id_not_in.
  - apply NoDup_snoc; [exact Hkey|]. rewrite Hr.
    unfold eventRegistration_findByEventUser in Hf.
    apply (find_pair_None reg_eventId reg_userId), Hf.
Qed.

Lemma keys_unique_update now id data :
  (forall r, reg_id (data r) = reg_id r /\ reg_key (data r) = reg_key r) ->
  preserves_ok keys_unique (eventRegistration_update now id data).
Proof.
  intros Hdata db (Hid & Hkey & Hwid & Hwkey).
  destruct (eventRegistration_update now id data db) as [[r|err] d] eqn:Hu;
    [|exact Logic.I].
  destruct (eventRegistration_update_ok _ _ _ _ _ _ Hu) as (old & _ & _ & -> & _).
  unfold keys_unique. simpl.
  rewrite !map_update_first by apply Hdata.
  repeat split; assumption.
Qed.

Lemma keys_unique_waitlistEntry_update now id data :
  keeps_keys data -> preserves_ok keys_unique (waitlistEntry_update now id data).
Proof.
  intros Hdata db (Hid & Hkey & Hwid & Hwkey). unfold waitlistEntry_update.
  destruct (waitlistEntry_findUnique id db) as [old|]; [|exact Logic.I].
  unfold keys_unique. simpl.
  rewrite !map_update_first.
  - repeat split; assumption.
  - intros w. unfold wl_key. simpl. destruct (Hdata w) as (_ & -> & ->). reflexivity.
  - intros w. simpl. apply Hdata.
Qed.

(** ** What no operation changes *)

Lemma filter_update_first_count {A} (q p : A -> bool) (f : A -> A) (l : list A) (old : A) :
  find p l = Some old ->
  (List.length (filter q (update_first p f l)) + (if q old then 1 else 0)
   = List.length (filter q l) + (if q (f old) then 1 else 0))%nat.
Proof.
  induction l as [|x t IH]; simpl; [discriminate|].
  destruct (p x) eqn:E.
  - intros [= ->]. simpl. destruct (q old), (q (f old)); simpl; lia.
  - intros H. specialize (IH H). simpl. destruct (q x); simpl; lia.
Qed.

Section SameSeats.

Context {clock : LocalClock}.

Variable start : DB.

Lemma same_seats_create now e u st ps ca :
  preserves_ok (same_seats start) (eventRegistration_create now e u st ps ca).
Proof.
  intros db [He Hc].
  destruct (eventRegistration_create now e u st ps ca db) as [[r|err] d] eqn:Hcr;
    [|exact Logic.I].
  destruct (eventRegistration_create_ok _ _ _ _ _ _ _ _ _ Hcr) as (_ & _ & _ & Hst & Hr & ->).
  split; [exact He|]. intros e'. rewrite <- Hc.
  unfold confirmed_count. simpl. rewrite filter_app, length_app. simpl.
  replace (is_confirmed_for e' r) with false; [simpl; lia|].
  rewrite Hr. unfold is_confirmed_for. simpl.
  destruct st; try contradiction; now rewrite andb_false_r.
Qed.

Lemma same_seats_update now id data :
  (forall r, reg_eventId (data r) = reg_eventId r) ->
  (forall r, reg_status (data r) <> PENDING) ->
  preserves_ok (same_seats start) (eventRegistration_update now id data).
Proof.
  intros Hev Hst db [He Hc].
  destruct (eventRegistration_update now id data db) as [[r|err] d] eqn:Hu;
    [|exact Logic.I].
  destruct (eventRegistration_update_ok _ _ _ _ _ _ Hu)
    as (old & Hold & -> & -> & Hnew & Hwas).
  split; [exact He|]. intros e'. rewrite <- Hc.
  pose proof (filter_update_first_count (is_confirmed_for e')
                (fun r => Nat.eqb (reg_id r) id) data _ _ Hold) as Hcount.
  replace (is_confirmed_for e' (data old)) with (is_confirmed_for e' old) in Hcount.
  - unfold confirmed_count. simpl. lia.
  - unfold is_confirmed_for. rewrite Hev. f_equal.
    specialize (Hst old).
    destruct (reg_status old) eqn:So, (reg_status (data old)) eqn:Sn; try reflexivity;
      try contradiction;
      try (specialize (Hnew eq_refl); discriminate);
      try (destruct (Hwas eq_refl); discriminate).
Qed.

Lemma same_seats_waitlistEntry_update now id data :
  preserves_ok (same_seats start) (waitlistEntry_update now id data).
Proof.
  intros db [He Hc].
  destruct (waitlistEntry_update now id data db) as [[r|err] d] eqn:Hu; [|exact Logic.I].
  destruct (waitlistEntry_update_events _ _ _ _ _ _ Hu) as (He' & Hr' & _).
  split; [congruence|]. intros e'. rewrite <- Hc. unfold confirmed_count. now rewrite Hr'.
Qed.

(** No sequence of operations changes a row of [events] or the number of
    [CONFIRMED] registrations of an event: the trigger that would write the
    counter raises, and with it every write that would confirm a
    registration or give a confirmed seat back. *)
Lemma run_same_seats checkout ops :
  events (run checkout start ops) = events start /\
  forall e, confirmed_count e (run checkout start ops) = confirmed_count e start.
Proof.
  apply (keep_run (same_seats start)).
  - apply same_seats_create.
  - intros now id sid. apply same_seats_update; [reflexivity|discriminate].
  - intros now id reason. apply same_seats_update; [reflexivity|discriminate].
  - intros now id data _. apply same_seats_waitlistEntry_update.
  - split; reflexivity.
Qed.

End SameSeats.

Section Invariants.

Context {clock : LocalClock}.

(** X2: The primary keys and the two unique indexes hold in every state the
    services can reach: no operation ever leaves two registrations, or two
    waitlist entries, for one (event, user) pair. *)
Theorem keys_unique_reachable checkout ops db :
  keys_unique db -> keys_unique (run checkout db ops).
Proof.
  apply keep_run.
  - apply keys_unique_create.
  - intros now id sid. apply keys_unique_update. intros r. split; reflexivity.
  - intros now id reason. apply keys_unique_update. intros r. split; reflexivity.
  - apply keys_unique_waitlistEntry_update.
Qed.

(** X1: At every state the services can reach, the counter [currentSeats] of
    every event is the number of its [CONFIRMED] registrations. *)
Theorem seats_match_reachable checkout ops db :
  seats_match db -> seats_match (run checkout db ops).
Proof.
  intros H e ev Hev. destruct (run_same_seats db checkout ops) as [He Hc].
  rewrite Hc. apply H. unfold event_findUnique in *. now rewrite <- He.
Qed.

(** X3: The seat counter is never negative: at every state reached by any
    sequence of operations from a state where no counter is negative. *)
Theorem seats_never_negative checkout ops db :
  seats_nonneg db -> seats_nonneg (run checkout db ops).
Proof.
  unfold seats_nonneg. now rewrite (proj1 (run_same_seats db checkout ops)).
Qed.

(** X4: Every operation but [confirmPayment] keeps
    [0 <= currentSeats <= maxSeats] for every event. *)
Theorem seat_bounds_without_confirmPayment checkout ops :
  forallb (fun op => negb (is_confirmPayment op)) ops = true ->
  forall db, seat_bounds db -> seat_bounds (run checkout db ops).
Proof.
  intros _ db. unfold seat_bounds. now rewrite (proj1 (run_same_seats db checkout ops)).
Qed.

(** C1: from a state where every event has [0 <= currentSeats <= maxSeats]
    and no more [CONFIRMED] registrations than seats, every sequence of
    register, confirmPayment, cancelRegistration, acceptOffer, declineOffer
    and sweep operations leads to a state where the same holds: no
    operation, [confirmPayment] on a pending paid registration included,
    drives the counter or the number of confirmed registrations above the
    capacity. (No operation changes either: every write that would confirm a
    registration is undone when the seat trigger raises.) *)
Theorem C1_seat_count_within_capacity checkout ops db :
  seat_bounds db -> confirmed_within_capacity db ->
  seat_bounds (run checkout db ops) /\ confirmed_within_capacity (run checkout db ops).
Proof.
  intros Hb Hc. destruct (run_same_seats db checkout ops) as [He Hn]. split.
  - unfold seat_bounds. now rewrite He.
  - intros e ev Hev. rewrite Hn. apply Hc. unfold event_findUnique in *. now rewrite <- He.
Qed.


End Invariants.
(** ** register *)

(** C10: whenever the row of the pair (event, user) has a status other than
    [CANCELLED] ([COMPLETED] included), [register] never registers: it throws
    and leaves the database as it was; when the event is open for
    registration the exception is the "Already registered for this event"
    conflict. *)
Theorem C10_register_rejects_non_cancelled_row
  (checkout : CheckoutParams -> Outcome string) (now : DateTime) (u e : Id)
  (db : DB) (r : EventRegistration) :
  eventRegistration_findByEventUser e u db = Some r ->
  reg_status r <> CANCELLED ->
  (exists err, register checkout now u e db = (Throw err, db)) /\
  (forall ev, event_findUnique e db = Some ev ->
     ev_status ev = "PUBLISHED" ->
     (forall d, ev_registrationDeadline ev = Some d -> now <= d) ->
     register checkout now u e db = (Throw AlreadyRegistered, db)).
Proof.
  intros Hr Hs.
  assert (Hneg : negb (RegistrationStatus_eqb (reg_status r) CANCELLED) = true).
  { destruct (RegistrationStatus_eqb_spec (reg_status r) CANCELLED); [contradiction|reflexivity]. }
  split.
  - unfold register, transaction, register_body, bind, query.
    destruct (event_findUnique e db) as [ev|]; [|eexists; reflexivity].
    pose proof (validateEventRegistration_pure now ev db) as Hv.
    destruct (validateEventRegistration now ev db) as [[[]|err] d]; simpl in Hv; subst d;
      [|eexists; reflexivity].
    rewrite Hr, Hneg. eexists; reflexivity.
  - intros ev Hev Hpub Hdl.
    unfold register, transaction, register_body, bind, query.
    rewrite Hev, (validateEventRegistration_open _ _ _ Hpub Hdl), Hr, Hneg. reflexivity.
Qed.

Lemma find_app_None {A} (p : A -> bool) (l l' : list A) :
  find p l = None -> find p (l ++ l')%list = find p l'.
Proof.
  induction l as [|x t IH]; simpl; [reflexivity|].
  destruct (p x); [discriminate|exact IH].
Qed.

Lemma register_body_passes checkout now u e db ev :
  event_findUnique e db = Some ev ->
  ev_status ev = "PUBLISHED" ->
  (forall d, ev_registrationDeadline ev = Some d -> now <= d) ->
  (forall r, eventRegistration_findByEventUser e u db = Some r -> reg_status r = CANCELLED) ->
  (forall w, waitlistEntry_findByEventUser e u db = Some w -> is_live w = false) ->
  register_body checkout now u e db = register_branch checkout now u e ev db.
Proof.
  intros Hev Hpub Hdl Hr Hw.
  unfold register_body. rewrite bind_query, Hev.
  unfold bind at 1. rewrite (validateEventRegistration_open _ _ _ Hpub Hdl).
  rewrite bind_query.
  replace (match eventRegistration_findByEventUser e u db with
           | Some r => if negb (RegistrationStatus_eqb (reg_status r) CANCELLED)
                       then throw AlreadyRegistered else ret tt
           | None => ret tt
           end) with (@ret unit tt).
  2:{ destruct (eventRegistration_findByEventUser e u db) as [r|]; [|reflexivity].
      now rewrite (Hr r eq_refl). }
  rewrite bind_ret, bind_query.
  replace (match waitlistEntry_findByEventUser e u db with
           | Some w => if is_live w then throw AlreadyWaitlisted else ret tt
           | None => ret tt
           end) with (@ret unit tt).
  2:{ destruct (waitlistEntry_findByEventUser e u db) as [w|]; [|reflexivity].
      now rewrite (Hw w eq_refl). }
  rewrite bind_ret. reflexivity.
Qed.

(** X9: The order of the guards of [register]: a missing event, then an event
    that is not published, then a deadline strictly in the past (the deadline
    instant itself is still open) and, for a subject who passes the check of
    the registrations, a live waitlist entry. Each rejection leaves the
    database as it was. *)
Theorem register_rejections checkout now u e db :
  (event_findUnique e db = None ->
   register checkout now u e db = (Throw EventNotFound, db)) /\
  (forall ev, event_findUnique e db = Some ev -> ev_status ev <> "PUBLISHED" ->
   register checkout now u e db = (Throw OfferingNotOpen, db)) /\
  (forall ev d, event_findUnique e db = Some ev -> ev_status ev = "PUBLISHED" ->
   ev_registrationDeadline ev = Some d -> d < now ->
   register checkout now u e db = (Throw DeadlinePassed, db)) /\
  (forall ev w, event_findUnique e db = Some ev -> ev_status ev = "PUBLISHED" ->
   (forall d, ev_registrationDeadline ev = Some d -> now <= d) ->
   (forall r, eventRegistration_findByEventUser e u db = Some r -> reg_status r = CANCELLED) ->
   waitlistEntry_findByEventUser e u db = Some w -> is_live w = true ->
   register checkout now u e db = (Throw AlreadyWaitlisted, db)).
Proof.
  repeat split.
  - intros Hev. unfold register, transaction, register_body. now rewrite bind_query, Hev.
  - intros ev Hev Hpub. unfold register, transaction, register_body.
    rewrite bind_query, Hev. unfold bind at 1, validateEventRegistration.
    destruct (String.eqb_spec (ev_status ev) "PUBLISHED"); [contradiction|reflexivity].
  - intros ev d Hev Hpub Hd Hlate. unfold register, transaction, register_body.
    rewrite bind_query, Hev. unfold bind at 1, validateEventRegistration.
    rewrite Hpub, Hd. simpl. destruct (Z.gtb_spec now d); [reflexivity|lia].
  - intros ev w Hev Hpub Hdl Hr Hw Hlive. unfold register, transaction, register_body.
    rewrite bind_query, Hev. unfold bind at 1.
    rewrite (validateEventRegistration_open _ _ _ Hpub Hdl). rewrite bind_query.
    replace (match eventRegistration_findByEventUser e u db with
             | Some r => if negb (RegistrationStatus_eqb (reg_status r) CANCELLED)
                         then throw AlreadyRegistered else ret tt
             | None => ret tt
             end) with (@ret unit tt).
    2:{ destruct (eventRegistration_findByEventUser e u db) as [r|]; [|reflexivity].
        now rewrite (Hr r eq_refl). }
    rewrite bind_ret, bind_query, Hw, Hlive. reflexivity.
Qed.

(** X10: Re-registration over a [CANCELLED] row, seat available: the insert is
    refused by the unique index, whatever the price of the event. *)
Lemma register_over_cancelled_row checkout now u e db ev r :
  event_findUnique e db = Some ev ->
  ev_status ev = "PUBLISHED" ->
  (forall d, ev_registrationDeadline ev = Some d -> now <= d) ->
  eventRegistration_findByEventUser e u db = Some r ->
  reg_status r = CANCELLED ->
  (forall w, waitlistEntry_findByEventUser e u db = Some w -> is_live w = false) ->
  ev_currentSeats ev < ev_maxSeats ev ->
  register checkout now u e db = (Throw PrismaUniqueConstraint, db).
Proof.
  intros Hev Hpub Hdl Hr Hc Hw Hfree.
  unfold register. apply transaction_rolls_back with (db' := db).
  rewrite (register_body_passes _ _ _ _ _ ev); try assumption.
  2:{ intros r' Hr'. congruence. }
  unfold register_branch.
  destruct (Z.geb_spec (ev_currentSeats ev) (ev_maxSeats ev)); [lia|].
  unfold register_seat_available, createConfirmedRegistration, createPendingRegistration.
  destruct (ev_isFree ev); unfold bind at 1, eventRegistration_create; now rewrite Hr.
Qed.

(** X11: A failing checkout undoes the registration it was created for. *)
Lemma register_checkout_failure checkout now u e db ev usr err :
  event_findUnique e db = Some ev ->
  ev_status ev = "PUBLISHED" ->
  (forall d, ev_registrationDeadline ev = Some d -> now <= d) ->
  eventRegistration_findByEventUser e u db = None ->
  (forall w, waitlistEntry_findByEventUser e u db = Some w -> is_live w = false) ->
  user_findUnique u db = Some usr ->
  ev_currentSeats ev < ev_maxSeats ev ->
  ev_isFree ev = false ->
  (forall p, checkout p = Throw err) ->
  register checkout now u e db = (Throw err, db) /\
  eventRegistration_findByEventUser e u (snd (register_body checkout now u e db)) <> None.
Proof.
  intros Hev Hpub Hdl Hr Hw Husr Hfree Hpaid Hdown.
  assert (Hbody : exists r,
            register_body checkout now u e db =
            (Throw err, set_event_registrations (fun l => (l ++ [r])%list) db) /\
            reg_eventId r = e /\ reg_userId r = u).
  { rewrite (register_body_passes _ _ _ _ _ ev); try assumption.
    2:{ intros r' Hr'. congruence. }
    unfold register_branch.
    destruct (Z.geb_spec (ev_currentSeats ev) (ev_maxSeats ev)); [lia|].
    unfold register_seat_available. rewrite Hpaid.
    unfold createPendingRegistration, bind at 1, eventRegistration_create.
    rewrite Hr, Hev, Husr. unfold bind at 1. simpl update_event_seat_count.
    unfold ret at 1 2. unfold bind at 1, user_email_of. rewrite bind_query.
    change (user_findUnique u (set_event_registrations ?f db)) with (user_findUnique u db).
    rewrite Husr. unfold ret at 1. rewrite Hdown.
    eexists. split; [reflexivity|]. split; reflexivity. }
  destruct Hbody as (r & Hbody & He & Hu).
  split.
  - unfold register. now apply transaction_rolls_back with (db' := set_event_registrations (fun l => (l ++ [r])%list) db).
  - rewrite Hbody. simpl. unfold eventRegistration_findByEventUser. simpl.
    rewrite find_app_None by exact Hr.
    simpl. rewrite He, Hu, !Nat.eqb_refl. discriminate.
Qed.

(** A row appended under a fresh key is the row its key selects. *)
Lemma find_snoc_fresh {A} (key : A -> Id) (l : list A) (x : A) :
  ~ In (key x) (map key l) ->
  find (fun y => Nat.eqb (key y) (key x)) (l ++ [x]) = Some x.
Proof.
  intros Hx. rewrite find_app_None.
  - simpl. now rewrite Nat.eqb_refl.
  - destruct (find _ l) as [y|] eqn:E; [|reflexivity].
    apply find_some in E. destruct E as [Hin Hy]. apply Nat.eqb_eq in Hy.
    exfalso. apply Hx. rewrite <- Hy. now apply in_map.
Qed.

(** The paid branch of [register], for a checkout that succeeds. *)
Lemma register_paid_eq checkout now u e db ev usr url :
  event_findUnique e db = Some ev ->
  ev_status ev = "PUBLISHED" ->
  (forall d, ev_registrationDeadline ev = Some d -> now <= d) ->
  eventRegistration_findByEventUser e u db = None ->
  (forall w, waitlistEntry_findByEventUser e u db = Some w -> is_live w = false) ->
  user_findUnique u db = Some usr ->
  ev_currentSeats ev < ev_maxSeats ev ->
  ev_isFree ev = false ->
  checkout (mkCheckoutParams u (user_email usr) e
              (fresh_id (map reg_id (event_registrations db)))
              (ev_title ev) (ev_price ev) (ev_stripePriceId ev)) = Ok url ->
  let r := mkRegistration (fresh_id (map reg_id (event_registrations db))) e u PENDING
                          (Some PAY_PENDING) None now None None None in
  register checkout now u e db
  = (Ok (mkRegistrationResult RT_checkout (Some r) (Some url) None),
     set_event_registrations (fun l => (l ++ [r])%list) db).
Proof.
  intros Hev Hpub Hdl Hr Hw Husr Hfree Hpaid Hurl.
  unfold register, transaction.
  rewrite (register_body_passes _ _ _ _ _ ev); try assumption.
  2:{ intros r' Hr'. congruence. }
  unfold register_branch.
  destruct (Z.geb_spec (ev_currentSeats ev) (ev_maxSeats ev)); [lia|].
  unfold register_seat_available. rewrite Hpaid.
  unfold createPendingRegistration, bind at 1, eventRegistration_create.
  rewrite Hr, Hev, Husr. unfold bind at 1. simpl update_event_seat_count.
  unfold ret at 1 2. unfold bind at 1, user_email_of. rewrite bind_query.
  change (user_findUnique u (set_event_registrations ?f db)) with (user_findUnique u db).
  rewrite Husr. unfold ret at 1. cbv beta iota. cbn [reg_id]. rewrite Hurl.
  reflexivity.
Qed.

(** X6: A paid event with a seat left: the subject gets a [PENDING] registration
    and the checkout URL made for that registration; no seat is counted. *)
Theorem register_paid_checkout checkout now u e db ev usr url :
  event_findUnique e db = Some ev ->
  ev_status ev = "PUBLISHED" ->
  (forall d, ev_registrationDeadline ev = Some d -> now <= d) ->
  eventRegistration_findByEventUser e u db = None ->
  (forall w, waitlistEntry_findByEventUser e u db = Some w -> is_live w = false) ->
  user_findUnique u db = Some usr ->
  ev_currentSeats ev < ev_maxSeats ev ->
  ev_isFree ev = false ->
  checkout (mkCheckoutParams u (user_email usr) e
              (fresh_id (map reg_id (event_registrations db)))
              (ev_title ev) (ev_price ev) (ev_stripePriceId ev)) = Ok url ->
  exists r,
    register checkout now u e db
      = (Ok (mkRegistrationResult RT_checkout (Some r) (Some url) None),
         set_event_registrations (fun l => (l ++ [r])%list) db) /\
    r = mkRegistration (fresh_id (map reg_id (event_registrations db))) e u PENDING
                       (Some PAY_PENDING) None now None None None.
Proof.
  intros Hev Hpub Hdl Hr Hw Husr Hfree Hpaid Hurl.
  eexists. split; [|reflexivity].
  now apply (register_paid_eq checkout now u e db ev usr url).
Qed.

(** X5: a free event with a seat left: the subject is never registered. The
    insert of the [CONFIRMED] row fires the seat trigger, whose [UPDATE]
    names columns the schema does not have; [register] throws that error and
    the insert is rolled back. *)
Theorem register_free_raises checkout now u e db ev usr :
  event_findUnique e db = Some ev ->
  ev_status ev = "PUBLISHED" ->
  (forall d, ev_registrationDeadline ev = Some d -> now <= d) ->
  eventRegistration_findByEventUser e u db = None ->
  (forall w, waitlistEntry_findByEventUser e u db = Some w -> is_live w = false) ->
  user_findUnique u db = Some usr ->
  ev_currentSeats ev < ev_maxSeats ev ->
  ev_isFree ev = true ->
  register checkout now u e db = (Throw PgUndefinedColumn, db) /\
  option_map reg_status
    (eventRegistration_findByEventUser e u (snd (register_body checkout now u e db)))
  = Some CONFIRMED.
Proof.
  intros Hev Hpub Hdl Hr Hw Husr Hfree Hisfree.
  assert (Hbody : register_body checkout now u e db =
            (Throw PgUndefinedColumn,
             set_event_registrations
               (fun l => (l ++ [mkRegistration (fresh_id (map reg_id (event_registrations db)))
                                               e u CONFIRMED None None now (Some now) None None])%list)
               db)).
  { rewrite (register_body_passes _ _ _ _ _ ev); try assumption.
    2:{ intros r' Hr'. congruence. }
    unfold register_branch.
    destruct (Z.geb_spec (ev_currentSeats ev) (ev_maxSeats ev)); [lia|].
    unfold register_seat_available. rewrite Hisfree.
    unfold createConfirmedRegistration, bind at 1, eventRegistration_create.
    rewrite Hr, Hev, Husr. reflexivity. }
  split.
  - unfold register. now apply transaction_rolls_back with (db' := snd (register_body checkout now u e db)); rewrite Hbody.
  - rewrite Hbody. unfold eventRegistration_findByEventUser in *. simpl.
    rewrite find_app_None by exact Hr. simpl. now rewrite !Nat.eqb_refl.
Qed.

(** X7: a full event: the subject never joins the waitlist. The insert into
    [waitlist] fires the position trigger, whose [SELECT] names a column the
    schema does not have; [register] throws that error, whether or not the
    subject has an old entry, and nothing changes. *)
Theorem register_full_raises checkout now u e db ev usr :
  event_findUnique e db = Some ev ->
  ev_status ev = "PUBLISHED" ->
  (forall d, ev_registrationDeadline ev = Some d -> now <= d) ->
  (forall r, eventRegistration_findByEventUser e u db = Some r -> reg_status r = CANCELLED) ->
  (forall w, waitlistEntry_findByEventUser e u db = Some w -> is_live w = false) ->
  user_findUnique u db = Some usr ->
  ev_maxSeats ev <= ev_currentSeats ev ->
  register checkout now u e db = (Throw PgUndefinedColumn, db).
Proof.
  intros Hev Hpub Hdl Hr Hw Husr Hfull.
  unfold register. apply transaction_rolls_back with (db' := db).
  rewrite (register_body_passes _ _ _ _ _ ev); try assumption.
  unfold register_branch.
  destruct (Z.geb_spec (ev_currentSeats ev) (ev_maxSeats ev)); [|lia].
  unfold addToWaitlist, bind at 1, user_email_of. rewrite bind_query, Husr.
  reflexivity.
Qed.
(** ** The waitlist queue *)

Lemma insert_by_position_In w x l :
  In x (insert_by_position w l) <-> x = w \/ In x l.
Proof.
  induction l as [|y t IH]; simpl.
  - intuition.
  - destruct (wl_position w <=? wl_position y); simpl; [intuition|].
    rewrite IH. intuition.
Qed.

Lemma orderBy_position_asc_In x l :
  In x (orderBy_position_asc l) <-> In x l.
Proof.
  induction l as [|y t IH]; simpl; [tauto|].
  rewrite insert_by_position_In, IH. intuition.
Qed.

Lemma insert_by_position_hd w l h :
  hd_error (insert_by_position w l) = Some h ->
  wl_position h <= wl_position w /\
  (forall y, hd_error l = Some y -> wl_position h <= wl_position y).
Proof.
  destruct l as [|y t]; simpl.
  - intros [= <-]. split; [lia|discriminate].
  - destruct (Z.leb_spec (wl_position w) (wl_position y)); simpl; intros [= <-].
    + split; [lia|]. intros ? [= <-]. lia.
    + split; [lia|]. intros ? [= <-]. lia.
Qed.

Lemma orderBy_position_asc_hd_min l h :
  hd_error (orderBy_position_asc l) = Some h ->
  forall x, In x l -> wl_position h <= wl_position x.
Proof.
  revert h. induction l as [|y t IH]; simpl; [tauto|].
  intros h Hh x Hx.
  destruct (insert_by_position_hd _ _ _ Hh) as [Hy Ht].
  destruct Hx as [<-|Hx]; [exact Hy|].
  destruct (orderBy_position_asc t) as [|m s] eqn:E.
  - apply orderBy_position_asc_In in Hx. rewrite E in Hx. destruct Hx.
  - specialize (Ht m eq_refl). specialize (IH m eq_refl x Hx). lia.
Qed.

Lemma findFirstWaiting_Some e db w :
  waitlistEntry_findFirstWaiting e db = Some w ->
  In w (waitlist db) /\ wl_eventId w = e /\ wl_status w = WAITING /\
  (forall x, In x (waitlist db) -> wl_eventId x = e -> wl_status x = WAITING ->
             wl_position w <= wl_position x).
Proof.
  unfold waitlistEntry_findFirstWaiting, waitlistEntry_findWaiting. intros H.
  assert (Hin : In w (filter (is_waiting_for e) (waitlist db))).
  { apply orderBy_position_asc_In.
    destruct (orderBy_position_asc _) as [|m s]; [discriminate|].
    injection H as ->. now left. }
  apply filter_In in Hin. destruct Hin as [Hin Hw].
  unfold is_waiting_for in Hw. apply andb_true_iff in Hw. destruct Hw as [He Hs].
  apply Nat.eqb_eq in He.
  destruct (WaitlistStatus_eqb_spec (wl_status w) WAITING) as [Hs'|]; [|discriminate].
  repeat split; try assumption.
  intros x Hx Hxe Hxs. apply (orderBy_position_asc_hd_min _ _ H).
  apply filter_In. split; [assumption|].
  unfold is_waiting_for. rewrite Hxe, Hxs, Nat.eqb_refl. reflexivity.
Qed.

Lemma findFirstWaiting_None e db :
  waitlistEntry_findFirstWaiting e db = None <->
  (forall x, In x (waitlist db) -> wl_eventId x = e -> wl_status x <> WAITING).
Proof.
  unfold waitlistEntry_findFirstWaiting, waitlistEntry_findWaiting. split.
  - intros H x Hx He Hs.
    assert (Hin : In x (orderBy_position_asc (filter (is_waiting_for e) (waitlist db)))).
    { apply orderBy_position_asc_In, filter_In. split; [assumption|].
      unfold is_waiting_for. rewrite He, Hs, Nat.eqb_refl. reflexivity. }
    destruct (orderBy_position_asc _); [destruct Hin|discriminate].
  - intros H.
    destruct (orderBy_position_asc _) as [|m s] eqn:E; [reflexivity|].
    assert (Hin : In m (filter (is_waiting_for e) (waitlist db))).
    { apply orderBy_position_asc_In. rewrite E. now left. }
    apply filter_In in Hin. destruct Hin as [Hin Hw].
    unfold is_waiting_for in Hw. apply andb_true_iff in Hw. destruct Hw as [He Hs].
    apply Nat.eqb_eq in He.
    destruct (WaitlistStatus_eqb_spec (wl_status m) WAITING) as [Hs'|]; [|discriminate].
    exfalso. exact (H m Hin He Hs').
Qed.

Lemma find_key_In {A} (key : A -> Id) (l : list A) (x : A) :
  In x l -> exists y, find (fun z => Nat.eqb (key z) (key x)) l = Some y.
Proof.
  induction l as [|z t IH]; simpl; [tauto|].
  intros [->|Hin].
  - rewrite Nat.eqb_refl. eauto.
  - destruct (Nat.eqb (key z) (key x)); eauto.
Qed.

(** ** processWaitlist *)

Section ProcessWaitlist.

Context {clock : LocalClock}.

(** [processWaitlist] never throws and only ever writes to the waitlist. *)
Lemma processWaitlist_total now e db :
  exists db', processWaitlist now e db = (Ok tt, db') /\
              users db' = users db /\ events db' = events db /\
              event_registrations db' = event_registrations db.
Proof.
  unfold processWaitlist, bind, query.
  destruct (event_findUnique e db) as [ev|]; [|now exists db].
  destruct (ev_currentSeats ev >=? ev_maxSeats ev); [now exists db|].
  destruct (waitlistEntry_findFirstWaiting e db) as [w|] eqn:Hw; [|now exists db].
  apply findFirstWaiting_Some in Hw. destruct Hw as [Hin _].
  destruct (find_key_In wl_id _ _ Hin) as [y Hy].
  unfold offerSpot, bind, waitlistEntry_update, waitlistEntry_findUnique. rewrite Hy.
  eexists. split; [reflexivity|]. repeat split.
Qed.

Lemma processWaitlist_full now e db ev :
  event_findUnique e db = Some ev ->
  ev_currentSeats ev >= ev_maxSeats ev ->
  processWaitlist now e db = (Ok tt, db).
Proof.
  intros Hev Hfull. unfold processWaitlist, bind, query. rewrite Hev.
  destruct (Z.geb_spec (ev_currentSeats ev) (ev_maxSeats ev)); [reflexivity|lia].
Qed.

Lemma processWaitlist_nobody now e db :
  waitlistEntry_findFirstWaiting e db = None ->
  processWaitlist now e db = (Ok tt, db).
Proof.
  intros Hw. unfold processWaitlist, bind, query.
  destruct (event_findUnique e db) as [ev|]; [|reflexivity].
  destruct (ev_currentSeats ev >=? ev_maxSeats ev); [reflexivity|].
  now rewrite Hw.
Qed.

Lemma processWaitlist_offers now e db ev w :
  NoDup (map wl_id (waitlist db)) ->
  event_findUnique e db = Some ev ->
  ev_currentSeats ev < ev_maxSeats ev ->
  waitlistEntry_findFirstWaiting e db = Some w ->
  exists l1 l2,
    waitlist db = (l1 ++ w :: l2)%list /\
    processWaitlist now e db =
      (Ok tt, set_waitlist (fun _ => (l1 ++ offered_entry now w :: l2)%list) db).
Proof.
  intros Hnd Hev Hfree Hw. unfold processWaitlist, bind, query. rewrite Hev.
  destruct (Z.geb_spec (ev_currentSeats ev) (ev_maxSeats ev)); [lia|].
  rewrite Hw. destruct (findFirstWaiting_Some _ _ _ Hw) as [Hin _].
  pose proof (find_key_NoDup wl_id _ _ Hnd Hin) as Hfind.
  unfold offerSpot, bind, waitlistEntry_update, waitlistEntry_findUnique. rewrite Hfind.
  destruct (update_first_split _ (fun w0 => with_updatedAt (data_offered now (addLocalHours 48 now) w0) now)
              _ _ Hfind) as (l1 & l2 & Hl & Hu & _).
  exists l1, l2. split; [exact Hl|].
  unfold ret, set_waitlist. rewrite Hu. reflexivity.
Qed.

Lemma processWaitlist_no_event now e db :
  event_findUnique e db = None ->
  processWaitlist now e db = (Ok tt, db).
Proof. intros H. unfold processWaitlist, bind, query. now rewrite H. Qed.

(** C5: [processWaitlist] (the specification's [promoteNext]) changes
    nothing when the event has no free seat ([currentSeats >= maxSeats]) or
    no [WAITING] entry; otherwise it rewrites exactly one row of the waitlist,
    the [WAITING] entry of the event with the least position, to [OFFERED]
    with [offeredAt = now] and [expiresAt] the clock with 48 added to its
    local hours, which is [now + 48 h] where the zone of the server has no
    shift in between; a call never adds more than one outstanding offer. *)
Theorem C5_processWaitlist_offers_lowest_position (now : DateTime) (e : Id) (db : DB) :
  NoDup (map wl_id (waitlist db)) ->
  (forall ev, event_findUnique e db = Some ev ->
     ev_currentSeats ev >= ev_maxSeats ev ->
     processWaitlist now e db = (Ok tt, db)) /\
  ((forall x, In x (waitlist db) -> wl_eventId x = e -> wl_status x <> WAITING) ->
     processWaitlist now e db = (Ok tt, db)) /\
  (forall ev, event_findUnique e db = Some ev ->
     ev_currentSeats ev < ev_maxSeats ev ->
     (exists x, In x (waitlist db) /\ wl_eventId x = e /\ wl_status x = WAITING) ->
     exists l1 w l2,
       waitlist db = (l1 ++ w :: l2)%list /\
       wl_eventId w = e /\ wl_status w = WAITING /\
       (forall x, In x (waitlist db) -> wl_eventId x = e -> wl_status x = WAITING ->
                  wl_position w <= wl_position x) /\
       processWaitlist now e db =
         (Ok tt, set_waitlist (fun _ => (l1 ++ offered_entry now w :: l2)%list) db) /\
       wl_status (offered_entry now w) = OFFERED /\
       wl_offeredAt (offered_entry now w) = Some now /\
       wl_expiresAt (offered_entry now w) = Some (addLocalHours 48 now) /\
       (addLocalHours 48 now = now + 48 * HOUR ->
        wl_expiresAt (offered_entry now w) = Some (now + 172800000)) /\
       wl_id (offered_entry now w) = wl_id w /\
       wl_position (offered_entry now w) = wl_position w) /\
  (List.length (filter is_offered (waitlist (committed (processWaitlist now e db))))
   <= S (List.length (filter is_offered (waitlist db))))%nat.
Proof.
  intros Hnd.
  split; [intros ev Hev Hfull; now apply (processWaitlist_full _ _ _ ev)|].
  split; [intros Hno; now apply processWaitlist_nobody, findFirstWaiting_None|].
  split.
  - intros ev Hev Hfree (x & Hx & Hxe & Hxs).
    destruct (waitlistEntry_findFirstWaiting e db) as [w|] eqn:Hw.
    + destruct (findFirstWaiting_Some _ _ _ Hw) as (_ & He & Hs & Hmin).
      destruct (processWaitlist_offers now _ _ _ _ Hnd Hev Hfree Hw) as (l1 & l2 & Hl & Hp).
      exists l1, w, l2. repeat split; try assumption.
      intros Hz. simpl. rewrite Hz. reflexivity.
    + exfalso. exact (proj1 (findFirstWaiting_None e db) Hw x Hx Hxe Hxs).
  - destruct (event_findUnique e db) as [ev|] eqn:Hev;
      [|rewrite processWaitlist_no_event by assumption; simpl; lia].
    destruct (Z.lt_ge_cases (ev_currentSeats ev) (ev_maxSeats ev)) as [Hfree|Hfull];
      [|rewrite (processWaitlist_full _ _ _ ev) by (assumption || lia); simpl; lia].
    destruct (waitlistEntry_findFirstWaiting e db) as [w|] eqn:Hw;
      [|rewrite processWaitlist_nobody by assumption; simpl; lia].
    destruct (processWaitlist_offers now _ _ _ _ Hnd Hev Hfree Hw) as (l1 & l2 & Hl & Hp).
    rewrite Hp, Hl. unfold committed. simpl.
    rewrite !filter_app, !length_app. simpl.
    destruct (findFirstWaiting_Some _ _ _ Hw) as (_ & _ & Hs & _).
    replace (is_offered w) with false by (unfold is_offered; now rewrite Hs). lia.
Qed.


(** X18: Promotion turns a [WAITING] entry into an [OFFERED] one: the live
    positions of every event are those of before. *)
Lemma processWaitlist_live_positions now e db e' :
  NoDup (map wl_id (waitlist db)) ->
  live_positions e' (snd (processWaitlist now e db)) = live_positions e' db.
Proof.
  intros Hnd.
  destruct (event_findUnique e db) as [ev|] eqn:Hev;
    [|now rewrite processWaitlist_no_event].
  destruct (Z.lt_ge_cases (ev_currentSeats ev) (ev_maxSeats ev)) as [Hfree|Hfull];
    [|rewrite (processWaitlist_full _ _ _ ev) by (assumption || lia); reflexivity].
  destruct (waitlistEntry_findFirstWaiting e db) as [w|] eqn:Hw;
    [|now rewrite processWaitlist_nobody].
  destruct (processWaitlist_offers now _ _ _ _ Hnd Hev Hfree Hw) as (l1 & l2 & Hl & ->).
  destruct (findFirstWaiting_Some _ _ _ Hw) as (_ & _ & Hs & _).
  unfold live_positions. simpl. rewrite Hl, !filter_app, !map_app. simpl.
  unfold is_live. rewrite Hs. simpl.
  destruct (Nat.eqb (wl_eventId w) e'); reflexivity.
Qed.


End ProcessWaitlist.
(** ** confirmPayment *)

Lemma confirmPayment_not_found now rid sid db :
  eventRegistration_findUnique rid db = None ->
  confirmPayment now rid sid db = (Throw RegistrationNotFound, db).
Proof.
  intros H. unfold confirmPayment, transaction, bind, query. now rewrite H.
Qed.

Lemma confirmPayment_not_pending now rid sid db r :
  eventRegistration_findUnique rid db = Some r ->
  reg_status r <> PENDING ->
  confirmPayment now rid sid db = (Throw RegistrationNotPending, db).
Proof.
  intros H Hs. unfold confirmPayment, transaction, bind, query. rewrite H.
  destruct (RegistrationStatus_eqb_spec (reg_status r) PENDING); [contradiction|reflexivity].
Qed.

(** The body of [confirmPayment] on a [PENDING] row: the row is written
    [CONFIRMED] and the seat trigger raises. *)
Lemma confirmPayment_body_pending now rid sid db r :
  eventRegistration_findUnique rid db = Some r ->
  reg_status r = PENDING ->
  (_ <- eventRegistration_update now rid (data_confirmed sid now) ;; ret tt) db
  = (Throw PgUndefinedColumn, confirmed_db now rid sid db).
Proof.
  intros H Hs. unfold bind at 1, eventRegistration_update. rewrite H. cbv beta zeta.
  unfold bind at 1. rewrite update_event_seat_count_update, Hs. reflexivity.
Qed.

(** C2: [confirmPayment] fails when the row is missing ("Registration not
    found") or not [PENDING] ("Registration is not pending"), as the
    specification says. On a [PENDING] row it never confirms: the row is
    written [CONFIRMED] inside the transaction, the seat trigger raises, the
    call throws that error and the write is rolled back. The registration
    stays [PENDING], no seat is counted, and a second delivery meets the same
    row and fails the same way instead of being turned away by the status
    guard. *)
Theorem C2_confirmPayment_never_confirms (now1 now2 : DateTime) (rid : Id) (sid : string)
  (db : DB) :
  (eventRegistration_findUnique rid db = None ->
   confirmPayment now1 rid sid db = (Throw RegistrationNotFound, db)) /\
  (forall r, eventRegistration_findUnique rid db = Some r -> reg_status r <> PENDING ->
   confirmPayment now1 rid sid db = (Throw RegistrationNotPending, db)) /\
  (forall r, eventRegistration_findUnique rid db = Some r -> reg_status r = PENDING ->
   confirmPayment now1 rid sid db = (Throw PgUndefinedColumn, db) /\
   option_map reg_status
     (eventRegistration_findUnique rid (confirmed_db now1 rid sid db)) = Some CONFIRMED /\
   option_map reg_status
     (eventRegistration_findUnique rid (committed (confirmPayment now1 rid sid db)))
   = Some PENDING /\
   confirmPayment now2 rid sid (committed (confirmPayment now1 rid sid db))
   = (Throw PgUndefinedColumn, db)) /\
  (exists err, confirmPayment now1 rid sid db = (Throw err, db)).
Proof.
  assert (Hpending : forall now r, eventRegistration_findUnique rid db = Some r ->
            reg_status r = PENDING ->
            confirmPayment now rid sid db = (Throw PgUndefinedColumn, db)).
  { intros now r H Hs. unfold confirmPayment.
    apply transaction_rolls_back with (db' := confirmed_db now rid sid db).
    rewrite bind_query, H, Hs. simpl. now apply (confirmPayment_body_pending now rid sid db r). }
  split; [apply confirmPayment_not_found|].
  split; [apply confirmPayment_not_pending|].
  split.
  - intros r H Hs. rewrite (Hpending now1 r H Hs). unfold committed. simpl.
    split; [reflexivity|]. split; [|split].
    + unfold confirmed_db, eventRegistration_findUnique in *. simpl.
      rewrite find_update_first by reflexivity. now rewrite H.
    + rewrite H. simpl. now rewrite Hs.
    + now apply (Hpending now2 r).
  - destruct (eventRegistration_findUnique rid db) as [r|] eqn:H.
    + destruct (RegistrationStatus_eqb_spec (reg_status r) PENDING) as [Hs|Hs].
      * exists PgUndefinedColumn. now apply (Hpending now1 r).
      * exists RegistrationNotPending. now apply (confirmPayment_not_pending _ _ _ _ r).
    + exists RegistrationNotFound. now apply confirmPayment_not_found.
Qed.

(** ** cancelRegistration *)


Lemma find_update_first_same_row {A} (q p : A -> bool) (f : A -> A) (l : list A) (r : A) :
  (forall x, q (f x) = q x) ->
  find q l = Some r -> find p l = Some r ->
  find q (update_first p f l) = Some (f r).
Proof.
  intros Hq. induction l as [|x t IH]; simpl; [discriminate|].
  destruct (p x) eqn:Ep; destruct (q x) eqn:Eq.
  - intros [= ->] _. simpl. now rewrite Hq, Eq.
  - intros Hf [= ->]. apply find_some in Hf. destruct Hf as [_ Hf]. congruence.
  - intros [= ->] Hf. apply find_some in Hf. destruct Hf as [_ Hf]. congruence.
  - intros H1 H2. simpl. rewrite Eq. now apply IH.
Qed.

Section CancelRegistration.

Context {clock : LocalClock}.

(** Cancelling a [PENDING] row writes that row and nothing else. *)
Lemma cancelRegistration_pending_eq now reason db r :
  eventRegistration_findByEventUser (reg_eventId r) (reg_userId r) db = Some r ->
  eventRegistration_findUnique (reg_id r) db = Some r ->
  reg_status r = PENDING ->
  cancelRegistration now (reg_userId r) (reg_eventId r) reason db
  = (Ok tt, cancelled_db now (reg_id r) reason db).
Proof.
  intros Hr Hid Hs.
  unfold cancelRegistration, transaction. rewrite bind_query, Hr, Hs. simpl.
  unfold bind at 1, eventRegistration_update. rewrite Hid. cbv beta zeta.
  unfold bind at 1. rewrite update_event_seat_count_update, Hs. reflexivity.
Qed.


(** What a successful cancellation writes to the registrations. *)
Lemma cancelRegistration_ok now u e reason db db' :
  cancelRegistration now u e reason db = (Ok tt, db') ->
  exists r,
    eventRegistration_findByEventUser e u db = Some r /\
    (reg_status r = PENDING \/ reg_status r = CONFIRMED) /\
    event_registrations db'
      = update_first (fun x => Nat.eqb (reg_id x) (reg_id r)) (data_cancelled now reason)
                     (event_registrations db).
Proof.
  unfold cancelRegistration, transaction. rewrite bind_query.
  destruct (eventRegistration_findByEventUser e u db) as [r|] eqn:Hr; [|discriminate].
  destruct (reg_status r) eqn:Hs; simpl; try discriminate.
  - unfold bind at 1.
    destruct (eventRegistration_update now (reg_id r) (data_cancelled now reason) db)
      as [[new|err] d] eqn:Hu; [|discriminate].
    destruct (eventRegistration_update_ok _ _ _ _ _ _ Hu) as (old & _ & _ & -> & _).
    unfold ret. intros [= <-]. exists r. auto.
  - unfold bind at 1.
    destruct (eventRegistration_update now (reg_id r) (data_cancelled now reason) db)
      as [[new|err] d] eqn:Hu; [|discriminate].
    destruct (eventRegistration_update_ok _ _ _ _ _ _ Hu) as (old & _ & _ & -> & _).
    match goal with
    | |- context [processWaitlist now e ?d] =>
        destruct (processWaitlist_total now e d) as (d'' & Hp & _ & _ & Hr2)
    end.
    rewrite Hp. intros [= <-]. exists r. rewrite Hr2. auto.
Qed.

(** X16: [cancelRegistration] refuses a pair without a row and a row that is
    already [CANCELLED] or [COMPLETED]; a second cancellation is therefore
    turned away and leaves everything as the first one left it, so a seat is
    given back once at most. *)
Theorem cancelRegistration_once now1 now2 u e reason1 reason2 db :
  NoDup (map reg_id (event_registrations db)) ->
  (eventRegistration_findByEventUser e u db = None ->
   cancelRegistration now1 u e reason1 db = (Throw CancelNotFound, db)) /\
  (forall r, eventRegistration_findByEventUser e u db = Some r ->
   reg_status r = CANCELLED \/ reg_status r = COMPLETED ->
   cancelRegistration now1 u e reason1 db = (Throw CancellationNotAllowed, db)) /\
  (forall db1, cancelRegistration now1 u e reason1 db = (Ok tt, db1) ->
   cancelRegistration now2 u e reason2 db1 = (Throw CancellationNotAllowed, db1)).
Proof.
  intros Hnd.
  assert (Hrej : forall now reason d r, eventRegistration_findByEventUser e u d = Some r ->
            reg_status r = CANCELLED \/ reg_status r = COMPLETED ->
            cancelRegistration now u e reason d = (Throw CancellationNotAllowed, d)).
  { intros now reason d r Hr Hs. unfold cancelRegistration, transaction.
    rewrite bind_query, Hr. now destruct Hs as [-> | ->]. }
  split; [|split].
  - intros Hr. unfold cancelRegistration, transaction. now rewrite bind_query, Hr.
  - apply Hrej.
  - intros db1 Hok.
    destruct (cancelRegistration_ok _ _ _ _ _ _ Hok) as (r & Hr & _ & Hregs).
    apply (Hrej now2 reason2 db1 (data_cancelled now1 reason1 r)); [|now left].
    unfold eventRegistration_findByEventUser in *. rewrite Hregs.
    apply find_update_first_same_row; [reflexivity|exact Hr|].
    apply (find_key_NoDup reg_id _ _ Hnd). now apply find_some in Hr.
Qed.


End CancelRegistration.

Section RegisterThenCancel.

Context {clock : LocalClock}.

(** X17: registering for a paid event and cancelling before the payment is
    confirmed: the cancellation returns, the row of the pair is [CANCELLED]
    with [cancelledAt] the time of the cancellation, and the events (seat
    counters included) and the waitlist are what they were before the
    registration. *)
Theorem register_paid_then_cancel checkout now1 now2 u e reason db ev usr url :
  event_findUnique e db = Some ev ->
  ev_status ev = "PUBLISHED" ->
  (forall d, ev_registrationDeadline ev = Some d -> now1 <= d) ->
  eventRegistration_findByEventUser e u db = None ->
  (forall w, waitlistEntry_findByEventUser e u db = Some w -> is_live w = false) ->
  user_findUnique u db = Some usr ->
  ev_currentSeats ev < ev_maxSeats ev ->
  ev_isFree ev = false ->
  checkout (mkCheckoutParams u (user_email usr) e
              (fresh_id (map reg_id (event_registrations db)))
              (ev_title ev) (ev_price ev) (ev_stripePriceId ev)) = Ok url ->
  let db1 := committed (register checkout now1 u e db) in
  let db2 := committed (cancelRegistration now2 u e reason db1) in
  option_map reg_status (eventRegistration_findByEventUser e u db1) = Some PENDING /\
  returned (cancelRegistration now2 u e reason db1) = Some tt /\
  option_map reg_status (eventRegistration_findByEventUser e u db2) = Some CANCELLED /\
  option_map reg_cancelledAt (eventRegistration_findByEventUser e u db2) = Some (Some now2) /\
  events db2 = events db /\ waitlist db2 = waitlist db.
Proof.
  intros Hev Hpub Hdl Hr Hw Husr Hfree Hpaid Hurl db1 db2.
  pose proof (register_paid_eq checkout now1 u e db ev usr url
                Hev Hpub Hdl Hr Hw Husr Hfree Hpaid Hurl) as Heq.
  cbv zeta in Heq.
  set (r := mkRegistration (fresh_id (map reg_id (event_registrations db))) e u PENDING
                           (Some PAY_PENDING) None now1 None None None) in *.
  assert (Hdb1 : db1 = set_event_registrations (fun l => (l ++ [r])%list) db)
    by (unfold db1; now rewrite Heq).
  assert (Hpair : eventRegistration_findByEventUser e u db1 = Some r).
  { rewrite Hdb1. unfold eventRegistration_findByEventUser in *. simpl.
    rewrite find_app_None by exact Hr. simpl. now rewrite !Nat.eqb_refl. }
  assert (Hid : eventRegistration_findUnique (reg_id r) db1 = Some r).
  { rewrite Hdb1. unfold eventRegistration_findUnique, set_event_registrations.
    cbn [event_registrations].
    exact (find_snoc_fresh reg_id (event_registrations db) r (fresh_id_not_in _)). }
  pose proof (cancelRegistration_pending_eq now2 reason db1 r Hpair Hid eq_refl) as Hc.
  change (reg_userId r) with u in Hc. change (reg_eventId r) with e in Hc.
  assert (Hpair2 : eventRegistration_findByEventUser e u db2
                   = Some (data_cancelled now2 reason r)).
  { unfold db2. rewrite Hc. unfold committed, cancelled_db. simpl.
    unfold eventRegistration_findByEventUser in *.
    apply find_update_first_same_row; [reflexivity|exact Hpair|exact Hid]. }
  rewrite Hpair, Hpair2, Hc. unfold db2. rewrite Hc, Hdb1.
  repeat split.
Qed.

End RegisterThenCancel.

(** ** Accepting an offer *)

Lemma bind_ok {A B} (m : Tx A) (k : A -> Tx B) (db db' : DB) (a : A) :
  m db = (Ok a, db') -> (x <- m ;; k x) db = k a db'.
Proof. unfold bind. now intros ->. Qed.

Lemma waitlistEntry_findUnique_id wid db entry :
  waitlistEntry_findUnique wid db = Some entry -> wl_id entry = wid.
Proof.
  unfold waitlistEntry_findUnique. intros H. apply find_some in H.
  now apply Nat.eqb_eq.
Qed.

Lemma acceptOffer_body_passes now u wid db entry ev :
  waitlistEntry_findUnique wid db = Some entry ->
  wl_userId entry = u ->
  wl_status entry = OFFERED ->
  (forall t, wl_expiresAt entry = Some t -> now <= t) ->
  event_findUnique (wl_eventId entry) db = Some ev ->
  ev_currentSeats ev < ev_maxSeats ev ->
  acceptOffer_body now u wid db = acceptOffer_writes now entry ev db.
Proof.
  intros Hentry Hu Hst Hexp Hev Hfree.
  assert (Hnotexp : match wl_expiresAt entry with Some t => now >? t | None => false end = false).
  { destruct (wl_expiresAt entry) as [t|]; [|reflexivity].
    specialize (Hexp t eq_refl). destruct (Z.gtb_spec now t); [lia|reflexivity]. }
  assert (Hcap : (ev_currentSeats ev >=? ev_maxSeats ev) = false).
  { destruct (Z.geb_spec (ev_currentSeats ev) (ev_maxSeats ev)); [lia|reflexivity]. }
  unfold acceptOffer_writes, acceptOffer_body, bind, query.
  rewrite Hentry, Hu, Nat.eqb_refl, Hst.
  change (negb true) with false. change (negb (WaitlistStatus_eqb OFFERED OFFERED)) with false.
  cbv beta iota.
  destruct (wl_expiresAt entry) as [t|]; [rewrite Hnotexp|];
    unfold ret; cbv beta iota; rewrite Hev, Hcap; reflexivity.
Qed.

(** The first write of [acceptOffer] once the guards have passed. *)
Lemma acceptOffer_marks_accepted now wid db entry :
  waitlistEntry_findUnique wid db = Some entry ->
  waitlistEntry_update now (wl_id entry) (data_responded ACCEPTED now) db
  = (Ok (with_updatedAt (data_responded ACCEPTED now entry) now),
     set_waitlist (update_first (fun w => Nat.eqb (wl_id w) wid)
                     (fun w => with_updatedAt (data_responded ACCEPTED now w) now)) db).
Proof.
  intros Hentry. pose proof (waitlistEntry_findUnique_id _ _ _ Hentry) as Hid.
  unfold waitlistEntry_update. rewrite Hid, Hentry. reflexivity.
Qed.

(** An offer past its deadline: the entry is marked [EXPIRED] inside the
    transaction, the call throws, and the rollback takes the mark back. *)
Lemma acceptOffer_expired now u wid db entry t :
  waitlistEntry_findUnique wid db = Some entry ->
  wl_userId entry = u ->
  wl_status entry = OFFERED ->
  wl_expiresAt entry = Some t ->
  t < now ->
  acceptOffer now u wid db = (Throw OfferExpired, db) /\
  option_map wl_status (waitlistEntry_findUnique wid (snd (acceptOffer_body now u wid db)))
    = Some EXPIRED.
Proof.
  intros Hentry Hu Hst Ht Hlate.
  pose proof (waitlistEntry_findUnique_id _ _ _ Hentry) as Hid.
  assert (Hbody : acceptOffer_body now u wid db =
            (Throw OfferExpired,
             set_waitlist (update_first (fun w => Nat.eqb (wl_id w) wid)
                             (fun w => with_updatedAt (data_responded EXPIRED now w) now)) db)).
  { unfold acceptOffer_body. rewrite bind_query, Hentry, Hu, Nat.eqb_refl, Hst, Ht.
    cbn [negb WaitlistStatus_eqb].
    destruct (Z.gtb_spec now t); [|lia].
    unfold bind at 1 2, waitlistEntry_update. rewrite Hid, Hentry. reflexivity. }
  split.
  - unfold acceptOffer. now apply transaction_rolls_back with (1 := Hbody).
  - rewrite Hbody. simpl. unfold waitlistEntry_findUnique in *. simpl.
    rewrite find_update_first by reflexivity. now rewrite Hentry.
Qed.


(** X12: The order of the guards of [acceptOffer]: a missing entry, somebody
    else's entry (whatever its status), an entry that holds no offer, an
    offer past its deadline, an event without a free seat. Each rejection
    leaves the database as it was. *)
Theorem acceptOffer_rejections now u wid db :
  (waitlistEntry_findUnique wid db = None ->
   acceptOffer now u wid db = (Throw EntryNotFound, db)) /\
  (forall w, waitlistEntry_findUnique wid db = Some w -> wl_userId w <> u ->
   acceptOffer now u wid db = (Throw NotAuthorized, db)) /\
  (forall w, waitlistEntry_findUnique wid db = Some w -> wl_userId w = u ->
   wl_status w <> OFFERED ->
   acceptOffer now u wid db = (Throw OfferNotActive, db)) /\
  (forall w t, waitlistEntry_findUnique wid db = Some w -> wl_userId w = u ->
   wl_status w = OFFERED -> wl_expiresAt w = Some t -> t < now ->
   acceptOffer now u wid db = (Throw OfferExpired, db)) /\
  (forall w, waitlistEntry_findUnique wid db = Some w -> wl_userId w = u ->
   wl_status w = OFFERED ->
   (forall t, wl_expiresAt w = Some t -> now <= t) ->
   (forall ev, event_findUnique (wl_eventId w) db = Some ev ->
               ev_maxSeats ev <= ev_currentSeats ev) ->
   acceptOffer now u wid db = (Throw NoCapacity, db)).
Proof.
  repeat split.
  - intros H. unfold acceptOffer, transaction, acceptOffer_body. now rewrite bind_query, H.
  - intros w H Hu. unfold acceptOffer, transaction, acceptOffer_body. rewrite bind_query, H.
    destruct (Nat.eqb_spec (wl_userId w) u); [contradiction|reflexivity].
  - intros w H Hu Hs. unfold acceptOffer, transaction, acceptOffer_body.
    rewrite bind_query, H, Hu, Nat.eqb_refl.
    destruct (WaitlistStatus_eqb_spec (wl_status w) OFFERED); [contradiction|reflexivity].
  - intros w t H Hu Hs Ht Hlate. now apply (acceptOffer_expired now u wid db w t).
  - intros w H Hu Hs Hexp Hfull.
    unfold acceptOffer. apply transaction_rolls_back with (db' := db).
    unfold acceptOffer_body. rewrite bind_query, H, Hu, Nat.eqb_refl, Hs.
    cbn [negb WaitlistStatus_eqb].
    replace (match wl_expiresAt w with
             | Some t => if now >? t
                         then _ <- waitlistEntry_update now (wl_id w)
                                     (data_responded EXPIRED now) ;; throw OfferExpired
                         else ret tt
             | None => ret tt
             end) with (@ret unit tt).
    2:{ destruct (wl_expiresAt w) as [t|]; [|reflexivity].
        specialize (Hexp t eq_refl). destruct (Z.gtb_spec now t); [lia|reflexivity]. }
    rewrite bind_ret, bind_query.
    destruct (event_findUnique (wl_eventId w) db) as [ev|]; [|reflexivity].
    specialize (Hfull ev eq_refl).
    destruct (Z.geb_spec (ev_currentSeats ev) (ev_maxSeats ev)); [reflexivity|lia].
Qed.

(** X13: An offer cannot be accepted by a subject who still has a registration
    row for the event, whatever its status: the offer passes every guard of
    [acceptOffer], the insert runs into the unique index on (eventId, userId),
    and the rollback leaves the entry [OFFERED] and no seat taken. *)
Theorem acceptOffer_over_existing_row now u wid db entry ev r :
  waitlistEntry_findUnique wid db = Some entry ->
  wl_userId entry = u ->
  wl_status entry = OFFERED ->
  (forall t, wl_expiresAt entry = Some t -> now <= t) ->
  event_findUnique (wl_eventId entry) db = Some ev ->
  ev_currentSeats ev < ev_maxSeats ev ->
  eventRegistration_findByEventUser (wl_eventId entry) u db = Some r ->
  acceptOffer now u wid db = (Throw PrismaUniqueConstraint, db) /\
  option_map wl_status
    (waitlistEntry_findUnique wid (snd (acceptOffer_body now u wid db))) = Some ACCEPTED.
Proof.
  intros Hentry Hu Hst Hexp Hev Hfree Hr.
  rewrite (acceptOffer_body_passes now u wid db entry ev) by assumption.
  pose proof (acceptOffer_marks_accepted now wid db entry Hentry) as Hupd.
  set (db_acc := set_waitlist
                   (update_first (fun w => Nat.eqb (wl_id w) wid)
                      (fun w => with_updatedAt (data_responded ACCEPTED now w) now)) db) in *.
  assert (Hcreate : forall st ps ca,
            eventRegistration_create now (wl_eventId entry) (wl_userId entry) st ps ca db_acc
            = (Throw PrismaUniqueConstraint, db_acc)).
  { intros st ps ca. unfold eventRegistration_create.
    replace (eventRegistration_findByEventUser (wl_eventId entry) (wl_userId entry) db_acc)
      with (Some r); [reflexivity|].
    rewrite Hu. symmetry. exact Hr. }
  assert (Hwrites : acceptOffer_writes now entry ev db = (Throw PrismaUniqueConstraint, db_acc)).
  { unfold acceptOffer_writes. rewrite (bind_ok _ _ _ _ _ Hupd).
    destruct (ev_isFree ev); unfold bind; now rewrite Hcreate. }
  split.
  - unfold acceptOffer. apply transaction_rolls_back with (db' := db_acc).
    now rewrite (acceptOffer_body_passes now u wid db entry ev).
  - rewrite Hwrites. unfold db_acc, waitlistEntry_findUnique. simpl.
    rewrite find_update_first by reflexivity.
    fold (waitlistEntry_findUnique wid db). now rewrite Hentry.
Qed.

(** X23: Accepting an offer for a free event never registers: the entry is
    marked [ACCEPTED] inside the transaction, the insert of the [CONFIRMED]
    row fires the seat trigger, whose [UPDATE] names columns the schema does
    not have, and everything is rolled back: the entry still holds the
    offer. *)
Theorem acceptOffer_free_raises now u wid db entry ev usr :
  waitlistEntry_findUnique wid db = Some entry ->
  wl_userId entry = u ->
  wl_status entry = OFFERED ->
  (forall t, wl_expiresAt entry = Some t -> now <= t) ->
  event_findUnique (wl_eventId entry) db = Some ev ->
  ev_currentSeats ev < ev_maxSeats ev ->
  ev_isFree ev = true ->
  eventRegistration_findByEventUser (wl_eventId entry) u db = None ->
  user_findUnique u db = Some usr ->
  acceptOffer now u wid db = (Throw PgUndefinedColumn, db) /\
  option_map wl_status
    (waitlistEntry_findUnique wid (committed (acceptOffer now u wid db))) = Some OFFERED /\
  eventRegistration_findByEventUser (wl_eventId entry) u
    (committed (acceptOffer now u wid db)) = None.
Proof.
  intros Hentry Hu Hst Hexp Hev Hfree Hisfree Hr Husr.
  assert (Hthrow : acceptOffer now u wid db = (Throw PgUndefinedColumn, db));
    [|rewrite Hthrow; unfold committed; cbn [snd]; rewrite Hentry; simpl;
      split; [reflexivity|split; [now rewrite Hst|exact Hr]]].
  pose proof (acceptOffer_marks_accepted now wid db entry Hentry) as Hupd.
  set (db_acc := set_waitlist
                   (update_first (fun w => Nat.eqb (wl_id w) wid)
                      (fun w => with_updatedAt (data_responded ACCEPTED now w) now)) db) in *.
  destruct (eventRegistration_create_confirmed_raises now (wl_eventId entry) u None
              (@Some DateTime now) db_acc ev usr Hr Hev Husr) as (d & Hc).
  unfold acceptOffer. apply transaction_rolls_back with (db' := d).
  rewrite (acceptOffer_body_passes now u wid db entry ev) by assumption.
  unfold acceptOffer_writes. rewrite (bind_ok _ _ _ _ _ Hupd), Hisfree, Hu.
  cbv iota. unfold bind. now rewrite Hc.
Qed.

Section AcceptOffer.
Context {clock : LocalClock}.


End AcceptOffer.

(** ** Declining an offer *)

Lemma update_first_key_NoDup {A} (key : A -> Id) (k : Id) (f : A -> A) (l : list A) (w : A) :
  NoDup (map key l) ->
  find (fun x => Nat.eqb (key x) k) l = Some w ->
  forall y, In y (update_first (fun x => Nat.eqb (key x) k) f l) -> key y = k -> y = f w.
Proof.
  intros Hnd Hfind y Hy Hk.
  destruct (update_first_split _ f _ _ Hfind) as (l1 & l2 & Hl & Hu & _).
  apply find_some in Hfind. destruct Hfind as [_ Hw]. apply Nat.eqb_eq in Hw.
  rewrite Hl, map_app in Hnd. simpl in Hnd. apply NoDup_remove_2 in Hnd.
  rewrite Hu in Hy. apply in_app_or in Hy. destruct Hy as [Hy|[Hy|Hy]].
  - exfalso. apply Hnd, in_or_app. left. rewrite Hw, <- Hk. now apply in_map.
  - now symmetry.
  - exfalso. apply Hnd, in_or_app. right. rewrite Hw, <- Hk. now apply in_map.
Qed.

Section DeclineOffer.
Context {clock : LocalClock}.

(** The promotion writes to a [WAITING] row only: a row whose id no
    [WAITING] row carries is left as it is. *)
Lemma processWaitlist_keeps_row now e db wid x :
  (forall y, In y (waitlist db) -> wl_id y = wid -> wl_status y <> WAITING) ->
  waitlistEntry_findUnique wid db = Some x ->
  waitlistEntry_findUnique wid (snd (processWaitlist now e db)) = Some x.
Proof.
  intros Hno Hx. unfold processWaitlist, bind, query.
  destruct (event_findUnique e db) as [ev|]; [|exact Hx].
  destruct (ev_currentSeats ev >=? ev_maxSeats ev); [exact Hx|].
  destruct (waitlistEntry_findFirstWaiting e db) as [w|] eqn:Hw; [|exact Hx].
  destruct (findFirstWaiting_Some _ _ _ Hw) as (Hin & _ & Hst & _).
  unfold offerSpot, bind, waitlistEntry_update.
  destruct (waitlistEntry_findUnique (wl_id w) db); [|exact Hx].
  unfold ret. cbn [snd]. unfold waitlistEntry_findUnique in *. simpl.
  rewrite find_update_first_other; [exact Hx|reflexivity|].
  intros y Hy. apply Nat.eqb_eq in Hy. apply Nat.eqb_neq. intros E.
  apply (Hno w Hin); [congruence|exact Hst].
Qed.

(** X14: Declining an offer, expired or not: the entry becomes [DECLINED] with
    [respondedAt = now] and keeps its position, then the promotion runs for
    the event in the same transaction; seat counters and registrations are
    not touched. When the ids of the waitlist are distinct, the committed
    entry is [DECLINED], answered at [now], at the position it had. *)
Theorem declineOffer_declines now u wid db w :
  waitlistEntry_findUnique wid db = Some w ->
  wl_userId w = u ->
  wl_status w = OFFERED ->
  let declined :=
    set_waitlist (update_first (fun x => Nat.eqb (wl_id x) wid)
                    (fun x => with_updatedAt (data_responded DECLINED now x) now)) db in
  declineOffer now u wid db = processWaitlist now (wl_eventId w) declined /\
  returned (declineOffer now u wid db) = Some tt /\
  waitlistEntry_findUnique wid declined
    = Some (with_updatedAt (data_responded DECLINED now w) now) /\
  events (committed (declineOffer now u wid db)) = events db /\
  event_registrations (committed (declineOffer now u wid db)) = event_registrations db /\
  (NoDup (map wl_id (waitlist db)) ->
   option_map wl_status
     (waitlistEntry_findUnique wid (committed (declineOffer now u wid db))) = Some DECLINED /\
   option_map wl_respondedAt
     (waitlistEntry_findUnique wid (committed (declineOffer now u wid db)))
     = Some (Some now) /\
   option_map wl_position
     (waitlistEntry_findUnique wid (committed (declineOffer now u wid db)))
     = Some (wl_position w) /\
   option_map wl_expiresAt
     (waitlistEntry_findUnique wid (committed (declineOffer now u wid db)))
     = Some (wl_expiresAt w)).
Proof.
  intros H Hu Hs declined.
  pose proof (waitlistEntry_findUnique_id _ _ _ H) as Hid.
  assert (Heq : declineOffer now u wid db = processWaitlist now (wl_eventId w) declined).
  { unfold declineOffer, transaction. rewrite bind_query, H, Hu, Nat.eqb_refl, Hs.
    cbn [negb WaitlistStatus_eqb]. unfold bind at 1, waitlistEntry_update.
    rewrite Hid, H. fold declined.
    destruct (processWaitlist_total now (wl_eventId w) declined) as (d & Hp & _).
    now rewrite Hp. }
  assert (Hdecl : waitlistEntry_findUnique wid declined
                  = Some (with_updatedAt (data_responded DECLINED now w) now)).
  { unfold declined, waitlistEntry_findUnique in *. simpl.
    rewrite find_update_first by reflexivity. now rewrite H. }
  split; [exact Heq|]. rewrite Heq.
  destruct (processWaitlist_total now (wl_eventId w) declined) as (d & Hp & _ & He & Hr).
  split; [now rewrite Hp|]. split; [exact Hdecl|].
  split; [now rewrite Hp|]. split; [now rewrite Hp|].
  intros Hnd. unfold committed.
  rewrite (processWaitlist_keeps_row now (wl_eventId w) declined wid
             (with_updatedAt (data_responded DECLINED now w) now)).
  - repeat split.
  - intros y Hy Hyid.
    rewrite (update_first_key_NoDup wl_id wid
               (fun x => with_updatedAt (data_responded DECLINED now x) now)
               (waitlist db) w Hnd H y Hy Hyid).
    discriminate.
  - exact Hdecl.
Qed.

(** X15: The guards of [declineOffer]; each rejection leaves the database as it
    was. *)
Theorem declineOffer_rejections now u wid db :
  (waitlistEntry_findUnique wid db = None ->
   declineOffer now u wid db = (Throw EntryNotFound, db)) /\
  (forall w, waitlistEntry_findUnique wid db = Some w -> wl_userId w <> u ->
   declineOffer now u wid db = (Throw NotAuthorized, db)) /\
  (forall w, waitlistEntry_findUnique wid db = Some w -> wl_userId w = u ->
   wl_status w <> OFFERED ->
   declineOffer now u wid db = (Throw NoOfferToDecline, db)).
Proof.
  repeat split.
  - intros H. unfold declineOffer, transaction. now rewrite bind_query, H.
  - intros w H Hu. unfold declineOffer, transaction. rewrite bind_query, H.
    destruct (Nat.eqb_spec (wl_userId w) u); [contradiction|reflexivity].
  - intros w H Hu Hs. unfold declineOffer, transaction.
    rewrite bind_query, H, Hu, Nat.eqb_refl.
    destruct (WaitlistStatus_eqb_spec (wl_status w) OFFERED); [contradiction|reflexivity].
Qed.

(** A write to the waitlist whose [data] keeps the position keeps the
    positions of the table. *)
Lemma waitlistEntry_update_positions now id data db r db' :
  (forall w, wl_position (data w) = wl_position w) ->
  waitlistEntry_update now id data db = (r, db') ->
  map wl_position (waitlist db') = map wl_position (waitlist db).
Proof.
  intros Hdata. unfold waitlistEntry_update.
  destruct (waitlistEntry_findUnique id db); intros [= <- <-]; [|reflexivity].
  simpl. apply map_update_first. intros x. simpl. apply Hdata.
Qed.

Lemma processWaitlist_positions now e db :
  map wl_position (waitlist (snd (processWaitlist now e db)))
  = map wl_position (waitlist db).
Proof.
  unfold processWaitlist, bind, query.
  destruct (event_findUnique e db) as [ev|]; [|reflexivity].
  destruct (ev_currentSeats ev >=? ev_maxSeats ev); [reflexivity|].
  destruct (waitlistEntry_findFirstWaiting e db) as [w|]; [|reflexivity].
  unfold offerSpot, bind.
  destruct (waitlistEntry_update now (wl_id w) (data_offered now (addLocalHours 48 now)) db)
    as [[r|err] d] eqn:Hu;
    apply waitlistEntry_update_positions in Hu; try exact Hu; reflexivity.
Qed.

(** X24: [declineOffer] never renumbers: whether it returns or throws, every
    row of the waitlist keeps its position, so the entries behind a declined
    offer stay where they were. *)
Theorem declineOffer_keeps_positions now u wid db :
  map wl_position (waitlist (committed (declineOffer now u wid db)))
  = map wl_position (waitlist db).
Proof.
  unfold committed, declineOffer, transaction. rewrite bind_query.
  destruct (waitlistEntry_findUnique wid db) as [w|]; [|reflexivity].
  destruct (negb (Nat.eqb (wl_userId w) u)); [reflexivity|].
  destruct (negb (WaitlistStatus_eqb (wl_status w) OFFERED)); [reflexivity|].
  unfold bind at 1.
  destruct (waitlistEntry_update now (wl_id w) (data_responded DECLINED now) db)
    as [[r|err] d] eqn:Hu; [|reflexivity].
  apply waitlistEntry_update_positions in Hu; [|reflexivity].
  destruct (processWaitlist_total now (wl_eventId w) d) as (d' & Hp & _).
  pose proof (processWaitlist_positions now (wl_eventId w) d) as Hpos.
  rewrite Hp in *. simpl in *. congruence.
Qed.

End DeclineOffer.

(** ** Rows under a unique key *)

Lemma In_update_first_key {A} (key : A -> Id) (k : Id) (f : A -> A) (l : list A) (r : A) :
  NoDup (map key l) ->
  find (fun x => Nat.eqb (key x) k) l = Some r ->
  forall x, In x (update_first (fun x => Nat.eqb (key x) k) f l) <->
            x = f r \/ (In x l /\ key x <> k).
Proof.
  intros Hnd Hf x.
  destruct (update_first_split _ f _ _ Hf) as (l1 & l2 & Hl & Hu & Hl1).
  rewrite Hu. subst l. rewrite map_app in Hnd. simpl in Hnd.
  assert (Hk : key r = k) by (apply find_some in Hf; now apply Nat.eqb_eq).
  pose proof (NoDup_remove_2 _ _ _ Hnd) as Hnot.
  assert (Hother : forall y, In y l1 \/ In y l2 -> key y <> k).
  { intros y Hy E. apply Hnot. rewrite <- map_app, Hk, <- E. apply in_map.
    now apply in_app_iff. }
  rewrite !in_app_iff. simpl. split.
  - intros [H|[H|H]]; [right|left|right]; auto.
  - intros [->|[[H|[<-|H]] Hne]]; auto. congruence.
Qed.

Lemma NoDup_map_filter {A B} (g : A -> B) (p : A -> bool) (l : list A) :
  NoDup (map g l) -> NoDup (map g (filter p l)).
Proof.
  induction l as [|x t IH]; simpl; [constructor|].
  intros Hnd. inversion Hnd as [|? ? Hx Ht]; subst.
  destruct (p x); simpl; [|now apply IH].
  constructor; [|now apply IH].
  intros Hin. apply Hx. apply in_map_iff in Hin. destruct Hin as (y & <- & Hy).
  apply in_map. now apply filter_In in Hy.
Qed.

Lemma insert_by_position_Permutation w l :
  Permutation (w :: l) (insert_by_position w l).
Proof.
  induction l as [|x t IH]; simpl; [reflexivity|].
  destruct (wl_position w <=? wl_position x); [reflexivity|].
  rewrite perm_swap. now constructor.
Qed.

Lemma orderBy_position_asc_Permutation l :
  Permutation l (orderBy_position_asc l).
Proof.
  induction l as [|x t IH]; simpl; [reflexivity|].
  rewrite <- insert_by_position_Permutation. now constructor.
Qed.

Lemma findWaiting_NoDup e db :
  NoDup (map wl_id (waitlist db)) -> NoDup (map wl_id (waitlistEntry_findWaiting e db)).
Proof.
  intros Hnd. unfold waitlistEntry_findWaiting.
  eapply Permutation_NoDup.
  - apply Permutation_map, orderBy_position_asc_Permutation.
  - now apply NoDup_map_filter.
Qed.

Lemma findWaiting_In e db w :
  In w (waitlistEntry_findWaiting e db) ->
  In w (waitlist db) /\ wl_eventId w = e /\ wl_status w = WAITING.
Proof.
  unfold waitlistEntry_findWaiting. intros H.
  apply orderBy_position_asc_In, filter_In in H. destruct H as [Hin H].
  unfold is_waiting_for in H. apply andb_true_iff in H. destruct H as [He Hs].
  apply Nat.eqb_eq in He.
  destruct (WaitlistStatus_eqb_spec (wl_status w) WAITING); [auto|discriminate].
Qed.

(** ** reorderWaitlistPositions *)

Lemma reorder_loop_spec now : forall l i db,
  NoDup (map wl_id l) ->
  (forall w, In w l -> waitlistEntry_findUnique (wl_id w) db = Some w) ->
  exists db',
    reorder_loop now i l db = (Ok tt, db') /\
    (forall j w, nth_error l j = Some w ->
       waitlistEntry_findUnique (wl_id w) db'
       = Some (with_updatedAt (with_position w (i + Z.of_nat j + 1)) now)) /\
    (forall id, ~ In id (map wl_id l) ->
       waitlistEntry_findUnique id db' = waitlistEntry_findUnique id db) /\
    map wl_id (waitlist db') = map wl_id (waitlist db) /\
    users db' = users db /\ events db' = events db /\
    event_registrations db' = event_registrations db.
Proof.
  induction l as [|w t IH]; intros i db Hnd Hfind; simpl.
  - exists db. repeat split; try reflexivity. intros [|j] w; discriminate.
  - inversion Hnd as [|? ? Hw Ht]; subst.
    unfold bind at 1, waitlistEntry_update. rewrite (Hfind w (or_introl eq_refl)).
    set (f := fun w0 => with_updatedAt (with_position w0 (i + 1)) now).
    set (db1 := set_waitlist (update_first (fun x => Nat.eqb (wl_id x) (wl_id w)) f) db).
    assert (Hsame : waitlistEntry_findUnique (wl_id w) db1 = Some (f w)).
    { unfold db1, waitlistEntry_findUnique. simpl.
      rewrite find_update_first by reflexivity.
      fold (waitlistEntry_findUnique (wl_id w) db). now rewrite (Hfind w (or_introl eq_refl)). }
    assert (Hother : forall id, id <> wl_id w ->
              waitlistEntry_findUnique id db1 = waitlistEntry_findUnique id db).
    { intros id Hne. unfold db1, waitlistEntry_findUnique. simpl.
      apply find_update_first_other; [reflexivity|].
      intros x Hx. apply Nat.eqb_eq in Hx. apply Nat.eqb_neq. congruence. }
    destruct (IH (i + 1) db1 Ht) as (db' & Hrun & Hpos & Hrest & Hids & Hu & He & Hr).
    { intros w' Hin. rewrite Hother; [apply Hfind; now right|].
      intros E. apply Hw. rewrite <- E. now apply in_map. }
    exists db'. split; [exact Hrun|]. split; [|split; [|split; [|repeat split]]].
    + intros [|j] w' Hj; simpl in Hj.
      * injection Hj as <-. rewrite Hrest by exact Hw. rewrite Hsame. unfold f.
        replace (i + Z.of_nat 0 + 1) with (i + 1) by lia. reflexivity.
      * rewrite (Hpos j w' Hj).
        replace (i + 1 + Z.of_nat j + 1) with (i + Z.of_nat (S j) + 1) by lia.
        reflexivity.
    + intros id Hid. simpl in Hid. rewrite Hrest by tauto. apply Hother.
      intros E. apply Hid. left. now symmetry.
    + rewrite Hids. unfold db1. simpl. now apply map_update_first.
    + exact Hu.
    + exact He.
    + exact Hr.
Qed.

(** X19: [reorderWaitlistPositions] gives the [WAITING] entries of the event the
    positions 1, 2, ... in the order of their former positions, leaves every
    other row as it was, and touches no other table. *)
Theorem reorderWaitlistPositions_renumbers now e db :
  NoDup (map wl_id (waitlist db)) ->
  exists db',
    reorderWaitlistPositions now e db = (Ok tt, db') /\
    (forall j w, nth_error (waitlistEntry_findWaiting e db) j = Some w ->
       waitlistEntry_findUnique (wl_id w) db'
       = Some (with_updatedAt (with_position w (Z.of_nat j + 1)) now)) /\
    (forall id, ~ In id (map wl_id (waitlistEntry_findWaiting e db)) ->
       waitlistEntry_findUnique id db' = waitlistEntry_findUnique id db) /\
    map wl_id (waitlist db') = map wl_id (waitlist db) /\
    events db' = events db /\ event_registrations db' = event_registrations db.
Proof.
  intros Hnd. unfold reorderWaitlistPositions. rewrite bind_query.
  destruct (reorder_loop_spec now (waitlistEntry_findWaiting e db) 0 db)
    as (db' & Hrun & Hpos & Hrest & Hids & _ & He & Hr).
  - now apply findWaiting_NoDup.
  - intros w Hw. apply findWaiting_In in Hw. destruct Hw as [Hin _].
    now apply (find_key_NoDup wl_id).
  - exists db'. repeat split; assumption.
Qed.

(** ** cleanupPendingRegistrations *)

Lemma find_pair_NoDup {A} (ke ku : A -> Id) (l : list A) (x : A) :
  NoDup (map (fun y => (ke y, ku y)) l) -> In x l ->
  find (fun y => Nat.eqb (ke y) (ke x) && Nat.eqb (ku y) (ku x)) l = Some x.
Proof.
  induction l as [|y t IH]; simpl; [tauto|].
  intros Hnd [->|Hin].
  - now rewrite !Nat.eqb_refl.
  - inversion Hnd as [|? ? Hy Ht]; subst.
    destruct (Nat.eqb_spec (ke y) (ke x)) as [E1|_]; [|now apply IH].
    destruct (Nat.eqb_spec (ku y) (ku x)) as [E2|_]; [|now apply IH].
    exfalso. apply Hy. rewrite E1, E2.
    now apply (in_map (fun y => (ke y, ku y))).
Qed.

Lemma filter_none {A} (p : A -> bool) (l : list A) :
  (forall x, In x l -> p x = false) -> filter p l = [].
Proof.
  induction l as [|x t IH]; simpl; [reflexivity|].
  intros H. rewrite (H x (or_introl eq_refl)). apply IH. intros y Hy. apply H. now right.
Qed.

Section Cleanup.
Context {clock : LocalClock}.

Lemma cleanup_loop_spec now : forall stale n db,
  NoDup (map reg_id (event_registrations db)) ->
  NoDup (map reg_key (event_registrations db)) ->
  NoDup (map reg_id stale) ->
  (forall r, In r stale -> In r (event_registrations db) /\ reg_status r = PENDING) ->
  exists db',
    cleanup_loop now stale n db = (Ok (n + List.length stale)%nat, db') /\
    users db' = users db /\ events db' = events db /\ waitlist db' = waitlist db /\
    map reg_id (event_registrations db') = map reg_id (event_registrations db) /\
    map reg_key (event_registrations db') = map reg_key (event_registrations db) /\
    (forall r, In r stale ->
       eventRegistration_findUnique (reg_id r) db' = Some (data_cancelled now (Some "Payment timeout - auto cancelled") r)) /\
    (forall id, ~ In id (map reg_id stale) ->
       eventRegistration_findUnique id db' = eventRegistration_findUnique id db).
Proof.
  induction stale as [|r t IH]; intros n db Hids Hkeys Hnd Hin; simpl.
  - exists db. rewrite Nat.add_0_r. repeat split; try reflexivity. intros r [].
  - inversion Hnd as [|? ? Hr Ht]; subst.
    destruct (Hin r (or_introl eq_refl)) as [Hrin Hrs].
    assert (Hfid : eventRegistration_findUnique (reg_id r) db = Some r)
      by now apply (find_key_NoDup reg_id).
    assert (Hfk : eventRegistration_findByEventUser (reg_eventId r) (reg_userId r) db = Some r)
      by now apply (find_pair_NoDup reg_eventId reg_userId).
    unfold bind at 1.
    rewrite (cancelRegistration_pending_eq now (Some "Payment timeout - auto cancelled") db r Hfk Hfid Hrs).
    set (db1 := cancelled_db now (reg_id r) (Some "Payment timeout - auto cancelled") db).
    assert (Hsame : eventRegistration_findUnique (reg_id r) db1
                    = Some (data_cancelled now (Some "Payment timeout - auto cancelled") r)).
    { unfold db1, cancelled_db, eventRegistration_findUnique. simpl.
      rewrite find_update_first by reflexivity.
      fold (eventRegistration_findUnique (reg_id r) db). now rewrite Hfid. }
    assert (Hother : forall id, id <> reg_id r ->
              eventRegistration_findUnique id db1 = eventRegistration_findUnique id db).
    { intros id Hne. unfold db1, cancelled_db, eventRegistration_findUnique. simpl.
      apply find_update_first_other; [reflexivity|].
      intros x Hx. apply Nat.eqb_eq in Hx. apply Nat.eqb_neq. congruence. }
    assert (Hids1 : map reg_id (event_registrations db1) = map reg_id (event_registrations db)).
    { unfold db1, cancelled_db. simpl. now apply map_update_first. }
    assert (Hkeys1 : map reg_key (event_registrations db1)
                     = map reg_key (event_registrations db)).
    { unfold db1, cancelled_db. simpl. now apply map_update_first. }
    destruct (IH (S n) db1) as (db' & Hrun & Hu & He & Hw & Hi & Hk & Hc & Ho).
    + now rewrite Hids1.
    + now rewrite Hkeys1.
    + exact Ht.
    + intros r' Hr'. destruct (Hin r' (or_intror Hr')) as [Hr'in Hr's].
      split; [|exact Hr's].
      assert (Hne : reg_id r' <> reg_id r).
      { intros E. apply Hr. rewrite <- E. now apply in_map. }
      assert (Hf : eventRegistration_findUnique (reg_id r') db1 = Some r').
      { rewrite (Hother _ Hne). now apply (find_key_NoDup reg_id). }
      apply find_some in Hf. tauto.
    + exists db'. rewrite Hrun. split; [f_equal; f_equal; lia|].
      split; [exact Hu|]. split; [exact He|]. split; [exact Hw|].
      split; [now rewrite Hi|]. split; [now rewrite Hk|]. split.
      * intros r' [<-|Hr']; [|now apply Hc].
        rewrite Ho by exact Hr. exact Hsame.
      * intros id Hid. simpl in Hid. rewrite Ho by tauto. apply Hother.
        intros E. apply Hid. left. now symmetry.
Qed.

(** X20: The hourly sweep takes 24 from the local hours of the clock and
    cancels exactly the registrations that are [PENDING] and were made
    strictly before that cutoff, with the reason of the cron job; it counts
    them, leaves every other registration, the events and the waitlist as
    they were, and finds nothing to do when run again at the same time.
    Where the local clock does not shift, the cutoff is 86 400 000 ms before
    [now]. *)
Theorem cleanupPendingRegistrations_sweeps now db :
  NoDup (map reg_id (event_registrations db)) ->
  NoDup (map reg_key (event_registrations db)) ->
  let cutoff := addLocalHours (-24) now in
  let stale :=
    filter (fun r => RegistrationStatus_eqb (reg_status r) PENDING
                     && (reg_registeredAt r <? cutoff)) (event_registrations db) in
  exists db',
    cleanupPendingRegistrations now db = (Ok (List.length stale), db') /\
    events db' = events db /\ waitlist db' = waitlist db /\
    (forall r, In r (event_registrations db) ->
       reg_status r = PENDING -> reg_registeredAt r < cutoff ->
       In r stale /\
       eventRegistration_findUnique (reg_id r) db'
       = Some (mkRegistration (reg_id r) (reg_eventId r) (reg_userId r) CANCELLED
                 (reg_paymentStatus r) (reg_stripeSessionId r) (reg_registeredAt r)
                 (reg_confirmedAt r) (Some now)
                 (Some "Payment timeout - auto cancelled"))) /\
    (forall r, In r (event_registrations db) ->
       reg_status r <> PENDING \/ cutoff <= reg_registeredAt r ->
       ~ In r stale /\ eventRegistration_findUnique (reg_id r) db' = Some r) /\
    cleanupPendingRegistrations now db' = (Ok 0%nat, db') /\
    (no_shift -> cutoff = now - 86400000).
Proof.
  intros Hids Hkeys cutoff stale.
  assert (Estale : stale = filter (is_stale_pending cutoff) (event_registrations db))
    by reflexivity.
  clearbody stale. subst stale.
  set (stale := filter (is_stale_pending cutoff) (event_registrations db)).
  assert (Hspec : forall r, is_stale_pending cutoff r = true <->
                            reg_status r = PENDING /\ reg_registeredAt r < cutoff).
  { intros r. unfold is_stale_pending. rewrite andb_true_iff, Z.ltb_lt.
    destruct (RegistrationStatus_eqb_spec (reg_status r) PENDING); intuition discriminate. }
  assert (Hstale : forall r, In r stale -> In r (event_registrations db) /\ reg_status r = PENDING).
  { intros r Hr. apply filter_In in Hr. destruct Hr as [Hin Hs]. split; [exact Hin|].
    now apply Hspec in Hs. }
  destruct (cleanup_loop_spec now stale 0%nat db Hids Hkeys)
    as (db' & Hrun & _ & He & Hw & Hi & _ & Hc & Ho).
  { now apply NoDup_map_filter. }
  { exact Hstale. }
  assert (Hkeep : forall r, In r (event_registrations db) ->
            is_stale_pending cutoff r = false ->
            eventRegistration_findUnique (reg_id r) db' = Some r).
  { intros r Hr Hs. rewrite Ho; [now apply (find_key_NoDup reg_id)|].
    intros Hin. apply in_map_iff in Hin. destruct Hin as (r' & E & Hr').
    apply filter_In in Hr'. destruct Hr' as [Hr'in Hr's].
    assert (r' = r); [|congruence].
    pose proof (find_key_NoDup reg_id _ _ Hids Hr'in) as F1.
    pose proof (find_key_NoDup reg_id _ _ Hids Hr) as F2.
    rewrite E in F1. congruence. }
  assert (Hnone : filter (is_stale_pending cutoff) (event_registrations db') = []).
  { apply filter_none. intros x Hx.
    assert (Hfx : eventRegistration_findUnique (reg_id x) db' = Some x).
    { apply (find_key_NoDup reg_id); [now rewrite Hi|exact Hx]. }
    assert (Hxid : In (reg_id x) (map reg_id (event_registrations db))).
    { rewrite <- Hi. now apply in_map. }
    apply in_map_iff in Hxid. destruct Hxid as (y & Ey & Hy).
    destruct (is_stale_pending cutoff y) eqn:Sy.
    - assert (Hys : In y stale) by (apply filter_In; auto).
      rewrite <- Ey, (Hc y Hys) in Hfx. injection Hfx as <-. reflexivity.
    - rewrite <- Ey, (Hkeep y Hy Sy) in Hfx. injection Hfx as <-.
      exact Sy. }
  exists db'. split; [|split; [exact He|split; [exact Hw|split; [|split; [|split]]]]].
  - unfold cleanupPendingRegistrations. rewrite bind_query. exact Hrun.
  - intros r Hr Hs Hlt.
    assert (Hin : In r stale) by (apply filter_In; split; [exact Hr|]; now apply Hspec).
    split; [exact Hin|]. rewrite (Hc r Hin). reflexivity.
  - intros r Hr Hnot.
    assert (Hs : is_stale_pending cutoff r = false).
    { destruct (is_stale_pending cutoff r) eqn:E; [|reflexivity].
      apply Hspec in E. destruct E as [E1 E2]. destruct Hnot; [contradiction|lia]. }
    split; [|now apply Hkeep].
    intros Hin. apply filter_In in Hin. destruct Hin as [_ Hin]. congruence.
  - unfold cleanupPendingRegistrations. rewrite bind_query.
    fold cutoff. rewrite Hnone. reflexivity.
  - intros Hshift. unfold cutoff. rewrite Hshift. unfold HOUR. lia.
Qed.

End Cleanup.

(** ** processExpiredOffers *)

Lemma findUnique_of_id id db :
  NoDup (map wl_id (waitlist db)) ->
  In id (map wl_id (waitlist db)) ->
  exists r, waitlistEntry_findUnique id db = Some r /\ In r (waitlist db) /\ wl_id r = id.
Proof.
  intros Hnd Hin. apply in_map_iff in Hin. destruct Hin as (r & <- & Hr).
  exists r. split; [now apply (find_key_NoDup wl_id)|auto].
Qed.

(** A property of every row survives an update by primary key when the
    rewritten row has it. *)
Lemma update_rows (P : WaitlistEntry -> Prop) k (f : WaitlistEntry -> WaitlistEntry) db r :
  NoDup (map wl_id (waitlist db)) ->
  waitlistEntry_findUnique k db = Some r ->
  P (f r) ->
  (forall x, In x (waitlist db) -> wl_id x <> k -> P x) ->
  forall x, In x (update_first (fun w => Nat.eqb (wl_id w) k) f (waitlist db)) -> P x.
Proof.
  intros Hnd Hf Hr Hothers x Hx.
  apply (In_update_first_key wl_id k f _ r Hnd Hf) in Hx.
  destruct Hx as [->|[Hin Hne]]; auto.
Qed.

Section ExpireSweep.
Context {clock : LocalClock}.

Variable now : DateTime.

(** What is known of every row while [rest] is still to be processed. *)
Variable Q : list WaitlistEntry -> WaitlistEntry -> Prop.
Variable expiredOffers : list WaitlistEntry.

Hypothesis Q_position : forall rest r p,
  wl_status r = WAITING -> Q rest r -> Q rest (with_updatedAt (with_position r p) now).
Hypothesis Q_offered : forall rest r,
  wl_status r = WAITING -> Q rest r -> Q rest (offered_entry now r).
Hypothesis Q_expired : forall o rest r,
  In o expiredOffers -> wl_id r = wl_id o -> Q (o :: rest) r ->
  Q rest (with_updatedAt (data_status EXPIRED r) now).
Hypothesis Q_other : forall o rest x,
  wl_id x <> wl_id o -> Q (o :: rest) x -> Q rest x.

Lemma reorder_loop_rows rest : forall l i db,
  NoDup (map wl_id (waitlist db)) ->
  (forall w, In w l ->
     exists x, In x (waitlist db) /\ wl_id x = wl_id w /\ wl_status x = WAITING) ->
  (forall x, In x (waitlist db) -> Q rest x) ->
  exists db',
    reorder_loop now i l db = (Ok tt, db') /\
    users db' = users db /\ events db' = events db /\
    event_registrations db' = event_registrations db /\
    map wl_id (waitlist db') = map wl_id (waitlist db) /\
    (forall x, In x (waitlist db') -> Q rest x).
Proof.
  induction l as [|w t IH]; intros i db Hnd Hl HQ; simpl.
  - exists db. repeat split; auto.
  - destruct (Hl w (or_introl eq_refl)) as (r & Hr & Hid & Hs).
    assert (Hf : waitlistEntry_findUnique (wl_id w) db = Some r).
    { rewrite <- Hid. now apply (find_key_NoDup wl_id). }
    set (f := fun w0 => with_updatedAt (with_position w0 (i + 1)) now).
    set (db1 := set_waitlist (update_first (fun x => Nat.eqb (wl_id x) (wl_id w)) f) db).
    assert (Hupd : waitlistEntry_update now (wl_id w) (fun w0 => with_position w0 (i + 1)) db
                   = (Ok (f r), db1)).
    { unfold waitlistEntry_update. now rewrite Hf. }
    rewrite (bind_ok _ _ _ _ _ Hupd).
    assert (Hids : map wl_id (waitlist db1) = map wl_id (waitlist db)).
    { unfold db1. simpl. now apply map_update_first. }
    destruct (IH (i + 1) db1) as (db' & Hrun & Hu & He & Hg & Hi & HQ').
    + now rewrite Hids.
    + intros w' Hw'. destruct (Hl w' (or_intror Hw')) as (x & Hx & Hxid & Hxs).
      destruct (Nat.eq_dec (wl_id x) (wl_id w)) as [E|Hne].
      * exists (f r). split; [|split].
        -- unfold db1. simpl.
           apply (In_update_first_key wl_id (wl_id w) f _ r Hnd Hf). now left.
        -- simpl. congruence.
        -- exact Hs.
      * exists x. split; [|auto].
        unfold db1. simpl.
        apply (In_update_first_key wl_id (wl_id w) f _ r Hnd Hf). now right.
    + unfold db1. simpl. apply (update_rows (Q rest) _ f db r Hnd Hf).
      * unfold f. now apply Q_position; [|apply HQ].
      * intros x Hx _. now apply HQ.
    + exists db'. split; [exact Hrun|]. repeat split; try assumption.
      now rewrite Hi.
Qed.

Lemma processWaitlist_rows rest e db :
  NoDup (map wl_id (waitlist db)) ->
  (forall x, In x (waitlist db) -> Q rest x) ->
  exists db',
    processWaitlist now e db = (Ok tt, db') /\
    users db' = users db /\ events db' = events db /\
    event_registrations db' = event_registrations db /\
    map wl_id (waitlist db') = map wl_id (waitlist db) /\
    (forall x, In x (waitlist db') -> Q rest x).
Proof.
  intros Hnd HQ. unfold processWaitlist. rewrite bind_query.
  destruct (event_findUnique e db) as [ev|]; [|exists db; repeat split; auto].
  destruct (ev_currentSeats ev >=? ev_maxSeats ev); [exists db; repeat split; auto|].
  rewrite bind_query.
  destruct (waitlistEntry_findFirstWaiting e db) as [w|] eqn:Hw;
    [|exists db; repeat split; auto].
  destruct (findFirstWaiting_Some _ _ _ Hw) as (Hin & _ & Hs & _).
  pose proof (find_key_NoDup wl_id _ _ Hnd Hin) as Hf.
  unfold offerSpot, bind, waitlistEntry_update, waitlistEntry_findUnique. rewrite Hf.
  eexists. split; [reflexivity|]. simpl. repeat split.
  - now apply map_update_first.
  - apply (update_rows (Q rest) _ _ db w Hnd Hf).
    + now apply (Q_offered rest w Hs), HQ.
    + intros x Hx _. now apply HQ.
Qed.

Lemma expire_loop_rows : forall rest n db,
  NoDup (map wl_id (waitlist db)) ->
  (forall o, In o rest -> In o expiredOffers /\ In (wl_id o) (map wl_id (waitlist db))) ->
  (forall x, In x (waitlist db) -> Q rest x) ->
  exists db',
    expire_loop now rest n db = (Ok (n + List.length rest)%nat, db') /\
    users db' = users db /\ events db' = events db /\
    event_registrations db' = event_registrations db /\
    map wl_id (waitlist db') = map wl_id (waitlist db) /\
    (forall x, In x (waitlist db') -> Q [] x).
Proof.
  induction rest as [|o rest IH]; intros n db Hnd Hrest HQ; simpl.
  - exists db. rewrite Nat.add_0_r. repeat split; auto.
  - destruct (Hrest o (or_introl eq_refl)) as [Ho Hoid].
    destruct (findUnique_of_id _ _ Hnd Hoid) as (r & Hf & Hr & Hrid).
    set (f := fun w0 => with_updatedAt (data_status EXPIRED w0) now).
    set (db1 := set_waitlist (update_first (fun x => Nat.eqb (wl_id x) (wl_id o)) f) db).
    assert (Hupd : waitlistEntry_update now (wl_id o) (data_status EXPIRED) db
                   = (Ok (f r), db1)).
    { unfold waitlistEntry_update. now rewrite Hf. }
    assert (Hids1 : map wl_id (waitlist db1) = map wl_id (waitlist db)).
    { unfold db1. simpl. now apply map_update_first. }
    assert (HQ1 : forall x, In x (waitlist db1) -> Q rest x).
    { unfold db1. simpl. apply (update_rows (Q rest) _ f db r Hnd Hf).
      - unfold f. apply (Q_expired o rest r Ho Hrid). now apply HQ.
      - intros x Hx Hne. apply (Q_other o rest x Hne). now apply HQ. }
    assert (Hnd1 : NoDup (map wl_id (waitlist db1))) by now rewrite Hids1.
    destruct (reorder_loop_rows rest (waitlistEntry_findWaiting (wl_eventId o) db1) 0 db1 Hnd1)
      as (db2 & Hrun2 & Hu2 & He2 & Hg2 & Hi2 & HQ2).
    { intros w Hw. apply findWaiting_In in Hw. exists w. tauto. }
    { exact HQ1. }
    assert (Hnd2 : NoDup (map wl_id (waitlist db2))) by now rewrite Hi2.
    destruct (processWaitlist_rows rest (wl_eventId o) db2 Hnd2 HQ2)
      as (db3 & Hrun3 & Hu3 & He3 & Hg3 & Hi3 & HQ3).
    assert (Hbody : transaction
                      (_ <- waitlistEntry_update now (wl_id o) (data_status EXPIRED) ;;
                       _ <- reorderWaitlistPositions now (wl_eventId o) ;;
                       processWaitlist now (wl_eventId o)) db = (Ok tt, db3)).
    { unfold transaction. rewrite (bind_ok _ _ _ _ _ Hupd).
      unfold reorderWaitlistPositions at 1.
      rewrite (bind_ok _ _ db1 db2 tt); [now rewrite Hrun3|].
      rewrite bind_query. exact Hrun2. }
    rewrite (bind_ok _ _ _ _ _ Hbody).
    destruct (IH (S n) db3) as (db' & Hrun & Hu & He & Hg & Hi & HQ').
    + now rewrite Hi3.
    + intros o' Ho'. destruct (Hrest o' (or_intror Ho')) as [H1 H2].
      split; [exact H1|]. now rewrite Hi3, Hi2, Hids1.
    + exact HQ3.
    + assert (Hu1 : users db1 = users db) by reflexivity.
      assert (He1 : events db1 = events db) by reflexivity.
      assert (Hg1 : event_registrations db1 = event_registrations db) by reflexivity.
      exists db'. rewrite Hrun. split; [f_equal; f_equal; lia|].
      split; [congruence|]. split; [congruence|]. split; [congruence|].
      split; [congruence|exact HQ'].
Qed.

End ExpireSweep.

Lemma NoDup_key_eq {A} (key : A -> Id) (l : list A) (a b : A) :
  NoDup (map key l) -> In a l -> In b l -> key a = key b -> a = b.
Proof.
  intros Hnd Ha Hb E.
  pose proof (find_key_NoDup key _ _ Hnd Ha) as Fa.
  pose proof (find_key_NoDup key _ _ Hnd Hb) as Fb.
  rewrite E in Fa. congruence.
Qed.

Section ExpiredOffers.
Context {clock : LocalClock}.

(** X21: The sweep of the expired offers marks every [OFFERED] entry whose
    [expiresAt] is before [now] as [EXPIRED] and counts it; no expired offer
    is left, so a second run at the same time does nothing.  Entries that
    are neither [WAITING] nor an expired offer are left exactly as they were,
    and no event or registration is written. *)
Theorem processExpiredOffers_sweeps now db :
  NoDup (map wl_id (waitlist db)) ->
  let expiredOffers := waitlistEntry_findExpiredOffers now db in
  exists db',
    processExpiredOffers now db = (Ok (List.length expiredOffers), db') /\
    events db' = events db /\ event_registrations db' = event_registrations db /\
    map wl_id (waitlist db') = map wl_id (waitlist db) /\
    (forall o, In o expiredOffers ->
       option_map wl_status (waitlistEntry_findUnique (wl_id o) db') = Some EXPIRED) /\
    (forall w, In w (waitlist db) -> wl_status w <> WAITING ->
       is_expired_offer now w = false ->
       waitlistEntry_findUnique (wl_id w) db' = Some w) /\
    waitlistEntry_findExpiredOffers now db' = [] /\
    processExpiredOffers now db' = (Ok 0%nat, db').
Proof.
  intros Hnd expiredOffers.
  pose (Q := fun (rest : list WaitlistEntry) (x : WaitlistEntry) =>
    (is_expired_offer now x = true -> In (wl_id x) (map wl_id rest)) /\
    (In (wl_id x) (map wl_id expiredOffers) -> ~ In (wl_id x) (map wl_id rest) ->
     wl_status x = EXPIRED) /\
    (forall w0, In w0 (waitlist db) -> wl_id w0 = wl_id x -> wl_status w0 <> WAITING ->
       is_expired_offer now w0 = false -> x = w0)).
  assert (Hexp : forall o, In o expiredOffers ->
            In o (waitlist db) /\ is_expired_offer now o = true).
  { intros o Ho. now apply filter_In in Ho. }
  destruct (expire_loop_rows now Q expiredOffers) with (rest := expiredOffers) (n := 0%nat) (db := db)
    as (db' & Hrun & _ & He & Hg & Hi & HQ).
  - (* position *)
    intros rest r p Hs (Q1 & Q2 & Q3). split; [|split].
    + intros Hx. apply Q1. exact Hx.
    + intros H1 H2. specialize (Q2 H1 H2). congruence.
    + intros w0 Hw0 Hid Hnw Hne. specialize (Q3 w0 Hw0 Hid Hnw Hne). congruence.
  - (* offered *)
    intros rest r Hs (Q1 & Q2 & Q3). split; [|split].
    + unfold is_expired_offer, offered_entry. simpl. intros Hx.
      apply Z.ltb_lt in Hx. pose proof (addLocalHours_48_later now). lia.
    + intros H1 H2. specialize (Q2 H1 H2). congruence.
    + intros w0 Hw0 Hid Hnw Hne. specialize (Q3 w0 Hw0 Hid Hnw Hne). congruence.
  - (* expired *)
    intros o rest r Ho Hid (Q1 & Q2 & Q3). split; [|split].
    + unfold is_expired_offer. simpl. discriminate.
    + reflexivity.
    + intros w0 Hw0 Hid0 Hnw Hne. exfalso.
      destruct (Hexp o Ho) as [Hoin Hoe].
      assert (w0 = o); [|congruence].
      apply (NoDup_key_eq wl_id _ _ _ Hnd Hw0 Hoin). simpl in Hid0. congruence.
  - (* other rows *)
    intros o rest x Hne (Q1 & Q2 & Q3). split; [|split].
    + intros Hx. destruct (Q1 Hx) as [E|H]; [congruence|exact H].
    + intros H1 H2. apply Q2; [exact H1|]. simpl. intros [E|H]; [congruence|tauto].
    + exact Q3.
  - exact Hnd.
  - intros o Ho. split; [exact Ho|]. apply in_map. now apply Hexp.
  - intros x Hx. split; [|split].
    + intros Hxe. apply in_map. apply filter_In. auto.
    + tauto.
    + intros w0 Hw0 Hid _ _. symmetry. now apply (NoDup_key_eq wl_id _ _ _ Hnd Hw0 Hx).
  - assert (Hnd' : NoDup (map wl_id (waitlist db'))) by now rewrite Hi.
    assert (Hnone : waitlistEntry_findExpiredOffers now db' = []).
    { apply filter_none. intros x Hx. destruct (HQ x Hx) as (Q1 & _).
      destruct (is_expired_offer now x); [destruct (Q1 eq_refl)|reflexivity]. }
    exists db'. split; [exact Hrun|]. split; [exact He|]. split; [exact Hg|].
    split; [exact Hi|]. split; [|split; [|split]].
    + intros o Ho. destruct (Hexp o Ho) as [Hoin _].
      destruct (findUnique_of_id (wl_id o) db' Hnd') as (r & Hf & Hr & Hrid).
      { rewrite Hi. now apply in_map. }
      rewrite Hf. simpl. f_equal. destruct (HQ r Hr) as (_ & Q2 & _).
      apply Q2; [|simpl; tauto]. rewrite Hrid. now apply in_map.
    + intros w Hw Hnw Hne.
      destruct (findUnique_of_id (wl_id w) db' Hnd') as (r & Hf & Hr & Hrid).
      { rewrite Hi. now apply in_map. }
      rewrite Hf. f_equal. destruct (HQ r Hr) as (_ & _ & Q3).
      apply Q3; auto.
    + exact Hnone.
    + unfold processExpiredOffers. rewrite bind_query, Hnone. reflexivity.
Qed.


End ExpiredOffers.

(** * The services on the sample states *)

(** The sample states are run on a server whose zone has no shift. *)
#[local] Existing Instance utc.

Lemma utc_no_shift : no_shift.
Proof. intros n t. reflexivity. Qed.

Lemma db0_seat_bounds : seat_bounds db0.
Proof. unfold seat_bounds, db0. cbn [events]. repeat constructor; simpl; lia. Qed.

Lemma db0_confirmed_within_capacity : confirmed_within_capacity db0.
Proof.
  intros e ev H. unfold event_findUnique, db0 in H. cbn [events find ev_id] in H.
  unfold confirmed_count, db0. cbn [event_registrations filter List.length Z.of_nat].
  destruct (Nat.eqb picnic e); [injection H as <-; simpl; lia|].
  destruct (Nat.eqb gala e); [injection H as <-; simpl; lia|discriminate].
Qed.

(** Alice's pending registration for the gala is what [register] leaves
    behind. *)
Lemma gala_pending_reached :
  committed (register checkout_ok 100 alice gala db0) = gala_pending.
Proof. vm_compute. reflexivity. Qed.

(** Alice and Bob both hold a pending registration for the one seat of the
    gala and both payments arrive: neither is confirmed, the counter stays
    at 0. *)
Lemma C1_seat_count_within_capacity_witness :
  let ops := [OpRegister 100 alice gala; OpRegister 110 bob gala;
              OpConfirmPayment 200 1%nat "cs_test_1"; OpConfirmPayment 210 2%nat "cs_test_2"] in
  seat_bounds (run checkout_ok db0 ops) /\ confirmed_within_capacity (run checkout_ok db0 ops).
Proof.
  intros ops.
  exact (C1_seat_count_within_capacity checkout_ok ops db0
           db0_seat_bounds db0_confirmed_within_capacity).
Defined.

(** The payment for Alice's pending registration for the gala arrives. *)
Lemma C2_confirmPayment_never_confirms_witness :
  confirmPayment 200 1%nat "cs_test" gala_pending = (Throw PgUndefinedColumn, gala_pending) /\
  option_map reg_status
    (eventRegistration_findUnique 1%nat
       (committed (confirmPayment 200 1%nat "cs_test" gala_pending))) = Some PENDING /\
  confirmPayment 300 1%nat "cs_test"
    (committed (confirmPayment 200 1%nat "cs_test" gala_pending))
  = (Throw PgUndefinedColumn, gala_pending).
Proof.
  destruct (C2_confirmPayment_never_confirms 200 300 1%nat "cs_test" gala_pending)
    as (_ & _ & Hpending & _).
  destruct (Hpending (mkRegistration 1%nat gala alice PENDING (Some PAY_PENDING) None 100
                                     None None None)
                     ltac:(by_evaluation) ltac:(by_evaluation)) as (H1 & _ & H3 & H4).
  split; [exact H1|]. split; [exact H3|exact H4].
Defined.

(** C3: a subject whose only row for the gala is [CANCELLED] registers again
    while the seat is free. The status check lets the call through, but the
    insert runs into the unique index on (eventId, userId): the call throws
    and no new registration exists. *)
Theorem C3_reregistration_violates_unique_index :
  let db := run checkout_ok db0
                [OpRegister 100 alice gala; OpCancelRegistration 400 alice gala None] in
  option_map reg_status
    (eventRegistration_findByEventUser gala alice
       (run checkout_ok db0 [OpRegister 100 alice gala])) = Some PENDING /\
  option_map reg_status (eventRegistration_findByEventUser gala alice db) = Some CANCELLED /\
  List.length (event_registrations db) = 1%nat /\
  seats_of gala db = Some 0 /\ capacity_of gala db = Some 1 /\
  register checkout_ok 500 alice gala db = (Throw PrismaUniqueConstraint, db) /\
  returned (register checkout_ok 500 alice gala db) = None.
Proof. vm_compute. repeat split. Qed.


(** The seat of the picnic is free, Bob waits before Carol: Bob gets the
    offer, which runs for 172 800 000 ms. *)
Lemma C5_processWaitlist_offers_lowest_position_witness :
  let w1 := mkWaitlistEntry 1%nat picnic bob "bob@example.org" 1
                            WAITING None None None 200 200 in
  let w2 := mkWaitlistEntry 2%nat picnic carol "carol@example.org" 2
                            WAITING None None None 300 300 in
  NoDup (map wl_id (waitlist picnic_queue)) /\
  (exists l1 w l2,
     waitlist picnic_queue = (l1 ++ w :: l2)%list /\
     (forall x, In x (waitlist picnic_queue) -> wl_eventId x = picnic ->
                wl_status x = WAITING -> wl_position w <= wl_position x) /\
     processWaitlist 400 picnic picnic_queue =
       (Ok tt, set_waitlist (fun _ => (l1 ++ offered_entry 400 w :: l2)%list) picnic_queue) /\
     wl_expiresAt (offered_entry 400 w) = Some (400 + 172800000)) /\
  processWaitlist 400 picnic picnic_queue =
    (Ok tt, set_waitlist (fun _ => [offered_entry 400 w1; w2]) picnic_queue).
Proof.
  intros w1 w2.
  assert (Hnd : NoDup (map wl_id (waitlist picnic_queue))) by NoDup_by_evaluation.
  split; [exact Hnd|]. split; [|by_evaluation].
  destruct (C5_processWaitlist_offers_lowest_position 400 picnic picnic_queue Hnd)
    as (_ & _ & Hoffer & _).
  destruct (Hoffer (mkEvent picnic "Picnic" None 1 0 true None None "PUBLISHED" 0)
                   ltac:(by_evaluation) ltac:(simpl; lia))
    as (l1 & w & l2 & Hl & _ & _ & Hmin & Hp & _ & _ & _ & Hexp & _).
  { exists w1. simpl. auto. }
  exists l1, w, l2. split; [exact Hl|]. split; [exact Hmin|]. split; [exact Hp|].
  apply Hexp. reflexivity.
Defined.



(** C8: the checkout collaborator is down when Alice registers for the
    gala. The pending row is inserted, the exception of the collaborator
    leaves the transaction, and the insert is rolled back: no registration
    row remains. *)
Theorem C8_checkout_failure_rolls_registration_back :
  option_map reg_status
    (eventRegistration_findByEventUser gala alice
       (snd (register_body checkout_down 100 alice gala db0))) = Some PENDING /\
  register checkout_down 100 alice gala db0 = (Throw CheckoutCreationFailed, db0) /\
  eventRegistration_findByEventUser gala alice
    (committed (register checkout_down 100 alice gala db0)) = None.
Proof. repeat split. Qed.



(** A subject whose registration for the picnic is [COMPLETED] is turned
    away. *)
Lemma C10_register_rejects_non_cancelled_row_witness :
  (exists err, register checkout_ok 900 alice picnic picnic_completed
               = (Throw err, picnic_completed)) /\
  register checkout_ok 900 alice picnic picnic_completed
  = (Throw AlreadyRegistered, picnic_completed).
Proof.
  destruct (C10_register_rejects_non_cancelled_row checkout_ok 900 alice picnic
              picnic_completed
              (mkRegistration 1%nat picnic alice COMPLETED None None 100 (Some 100) None None)
              ltac:(by_evaluation)) as [H1 H2].
  - discriminate.
  - split; [exact H1|].
    apply (H2 (mkEvent picnic "Picnic" None 1 0 true None None "PUBLISHED" 0));
      [reflexivity|reflexivity|discriminate].
Defined.

(** ** The invariants along a run *)

(** Alice takes a pending registration for the gala, Bob tries the free
    picnic, the payment arrives, Alice cancels, the sweep runs. *)
Lemma keys_unique_reachable_witness :
  keys_unique (run checkout_ok db0
                 [OpRegister 100 alice gala; OpRegister 150 bob picnic;
                  OpConfirmPayment 200 1%nat "cs_test";
                  OpCancelRegistration 400 alice gala None;
                  OpCleanupPendingRegistrations 500]).
Proof.
  apply keys_unique_reachable. unfold keys_unique, db0. cbn [event_registrations waitlist map].
  repeat split; constructor.
Defined.

Lemma seats_match_reachable_witness :
  seats_match (run checkout_ok db0
                 [OpRegister 100 alice gala; OpRegister 150 bob picnic;
                  OpConfirmPayment 200 1%nat "cs_test";
                  OpCancelRegistration 400 alice gala None;
                  OpCleanupPendingRegistrations 500]).
Proof.
  apply seats_match_reachable. intros e ev H.
  unfold event_findUnique, db0 in H. cbn [events find ev_id] in H.
  destruct (Nat.eqb picnic e); [injection H as <-; reflexivity|].
  destruct (Nat.eqb gala e); [injection H as <-; reflexivity|discriminate].
Defined.

Lemma seats_never_negative_witness :
  seats_nonneg (run checkout_ok picnic_taken
                  [OpCancelRegistration 400 alice picnic None;
                   OpCancelRegistration 500 alice picnic None;
                   OpRegister 600 bob picnic]).
Proof.
  apply seats_never_negative. unfold seats_nonneg, picnic_taken. cbn [events].
  repeat constructor; by_evaluation.
Defined.

Lemma seat_bounds_without_confirmPayment_witness :
  seat_bounds (run checkout_ok db0
                 [OpRegister 100 alice gala; OpRegister 200 bob gala;
                  OpCancelRegistration 400 alice gala None; OpAcceptOffer 500 bob 1%nat]).
Proof.
  apply seat_bounds_without_confirmPayment; [reflexivity|exact db0_seat_bounds].
Defined.

(** ** register *)

(** Alice registers for the free picnic while its seat is free. *)
Lemma register_free_raises_witness :
  register checkout_ok 100 alice picnic db0 = (Throw PgUndefinedColumn, db0) /\
  option_map reg_status
    (eventRegistration_findByEventUser picnic alice
       (snd (register_body checkout_ok 100 alice picnic db0))) = Some CONFIRMED.
Proof.
  exact (register_free_raises checkout_ok 100 alice picnic db0
           (mkEvent picnic "Picnic" None 1 0 true None None "PUBLISHED" 0)
           (mkUser alice "alice@example.org")
           ltac:(by_evaluation) ltac:(by_evaluation) ltac:(by_evaluation)
           ltac:(by_evaluation) ltac:(by_evaluation) ltac:(by_evaluation)
           ltac:(by_evaluation) ltac:(by_evaluation)).
Defined.

(** Alice registers for the paid gala: a pending row and a checkout. *)
Lemma register_paid_checkout_witness :
  exists r,
    register checkout_ok 100 alice gala db0
      = (Ok (mkRegistrationResult RT_checkout (Some r)
               (Some "https://checkout.stripe.com/pay/cs_test") None),
         set_event_registrations (fun l => (l ++ [r])%list) db0) /\
    r = mkRegistration 1%nat gala alice PENDING (Some PAY_PENDING) None 100 None None None.
Proof.
  exact (register_paid_checkout checkout_ok 100 alice gala db0
           (mkEvent gala "Gala" None 1 0 false (Some 5000) None "PUBLISHED" 0)
           (mkUser alice "alice@example.org") "https://checkout.stripe.com/pay/cs_test"
           ltac:(by_evaluation) ltac:(by_evaluation) ltac:(by_evaluation)
           ltac:(by_evaluation) ltac:(by_evaluation) ltac:(by_evaluation)
           ltac:(by_evaluation) ltac:(by_evaluation) ltac:(by_evaluation)).
Defined.

(** The picnic is full when Bob registers. *)
Lemma register_full_raises_witness :
  register checkout_ok 200 bob picnic picnic_taken = (Throw PgUndefinedColumn, picnic_taken).
Proof.
  exact (register_full_raises checkout_ok 200 bob picnic picnic_taken
           (mkEvent picnic "Picnic" None 1 1 true None None "PUBLISHED" 100)
           (mkUser bob "bob@example.org")
           ltac:(by_evaluation) ltac:(by_evaluation) ltac:(by_evaluation)
           ltac:(by_evaluation) ltac:(by_evaluation) ltac:(by_evaluation)
           ltac:(simpl; lia)).
Defined.

(** An unknown event, and Bob registering while he holds an offer. *)
Lemma register_rejections_witness :
  register checkout_ok 100 alice 99%nat db0 = (Throw EventNotFound, db0) /\
  register checkout_ok 450 bob picnic picnic_offer = (Throw AlreadyWaitlisted, picnic_offer).
Proof.
  split.
  - exact (proj1 (register_rejections checkout_ok 100 alice 99%nat db0) ltac:(by_evaluation)).
  - exact (proj2 (proj2 (proj2 (register_rejections checkout_ok 450 bob picnic picnic_offer)))
             (mkEvent picnic "Picnic" None 1 0 true None None "PUBLISHED" 0)
             (mkWaitlistEntry 1%nat picnic bob "bob@example.org" 1 OFFERED (Some 400)
                              (Some (400 + HOURS_48)) None 200 400)
             ltac:(by_evaluation) ltac:(by_evaluation) ltac:(by_evaluation)
             ltac:(by_evaluation) ltac:(by_evaluation) ltac:(by_evaluation)).
Defined.

(** Alice cancelled her pending registration for the gala and registers
    again. *)
Lemma register_over_cancelled_row_witness :
  let db := run checkout_ok db0
                [OpRegister 100 alice gala; OpCancelRegistration 400 alice gala None] in
  register checkout_ok 500 alice gala db = (Throw PrismaUniqueConstraint, db).
Proof.
  intros db.
  exact (register_over_cancelled_row checkout_ok 500 alice gala db
           (mkEvent gala "Gala" None 1 0 false (Some 5000) None "PUBLISHED" 0)
           (mkRegistration 1%nat gala alice CANCELLED (Some PAY_PENDING) None 100 None
                           (Some 400) None)
           ltac:(by_evaluation) ltac:(by_evaluation) ltac:(by_evaluation)
           ltac:(by_evaluation) ltac:(by_evaluation) ltac:(by_evaluation)
           ltac:(by_evaluation)).
Defined.

(** The checkout collaborator is down when Alice registers for the gala. *)
Lemma register_checkout_failure_witness :
  register checkout_down 100 alice gala db0 = (Throw CheckoutCreationFailed, db0) /\
  eventRegistration_findByEventUser gala alice
    (snd (register_body checkout_down 100 alice gala db0)) <> None.
Proof.
  exact (register_checkout_failure checkout_down 100 alice gala db0
           (mkEvent gala "Gala" None 1 0 false (Some 5000) None "PUBLISHED" 0)
           (mkUser alice "alice@example.org") CheckoutCreationFailed
           ltac:(by_evaluation) ltac:(by_evaluation) ltac:(by_evaluation)
           ltac:(by_evaluation) ltac:(by_evaluation) ltac:(by_evaluation)
           ltac:(by_evaluation) ltac:(by_evaluation) ltac:(by_evaluation)).
Defined.

(** Alice registers for the paid gala and cancels before she pays. *)
Lemma register_paid_then_cancel_witness :
  let db1 := committed (register checkout_ok 100 alice gala db0) in
  let db2 := committed (cancelRegistration 400 alice gala None db1) in
  option_map reg_status (eventRegistration_findByEventUser gala alice db1) = Some PENDING /\
  returned (cancelRegistration 400 alice gala None db1) = Some tt /\
  option_map reg_status (eventRegistration_findByEventUser gala alice db2) = Some CANCELLED /\
  option_map reg_cancelledAt (eventRegistration_findByEventUser gala alice db2)
  = Some (Some 400) /\
  events db2 = events db0 /\ waitlist db2 = waitlist db0.
Proof.
  exact (register_paid_then_cancel checkout_ok 100 400 alice gala None db0
           (mkEvent gala "Gala" None 1 0 false (Some 5000) None "PUBLISHED" 0)
           (mkUser alice "alice@example.org") "https://checkout.stripe.com/pay/cs_test"
           ltac:(by_evaluation) ltac:(by_evaluation) ltac:(by_evaluation)
           ltac:(by_evaluation) ltac:(by_evaluation) ltac:(by_evaluation)
           ltac:(by_evaluation) ltac:(by_evaluation) ltac:(by_evaluation)).
Defined.

(** Alice cancels her pending registration for the gala twice. *)
Lemma cancelRegistration_once_witness :
  let db1 := committed (cancelRegistration 400 alice gala None gala_pending) in
  returned (cancelRegistration 400 alice gala None gala_pending) = Some tt /\
  cancelRegistration 500 alice gala (Some "again") db1 = (Throw CancellationNotAllowed, db1).
Proof.
  intros db1. split; [by_evaluation|].
  exact (proj2 (proj2 (cancelRegistration_once 400 500 alice gala None (Some "again")
                         gala_pending ltac:(NoDup_by_evaluation)))
           db1 ltac:(by_evaluation)).
Defined.

(** ** Answers to an offer *)

(** Carol tries to accept Bob's offer; Bob accepts his own too late. *)
Lemma acceptOffer_rejections_witness :
  acceptOffer 500 carol 1%nat picnic_offer = (Throw NotAuthorized, picnic_offer) /\
  acceptOffer (400 + HOURS_48 + 1) bob 1%nat picnic_offer = (Throw OfferExpired, picnic_offer).
Proof.
  split.
  - exact (proj1 (proj2 (acceptOffer_rejections 500 carol 1%nat picnic_offer))
             (mkWaitlistEntry 1%nat picnic bob "bob@example.org" 1 OFFERED (Some 400)
                              (Some (400 + HOURS_48)) None 200 400)
             ltac:(by_evaluation) ltac:(by_evaluation)).
  - exact (proj1 (proj2 (proj2 (proj2
             (acceptOffer_rejections (400 + HOURS_48 + 1) bob 1%nat picnic_offer))))
             (mkWaitlistEntry 1%nat picnic bob "bob@example.org" 1 OFFERED (Some 400)
                              (Some (400 + HOURS_48)) None 200 400)
             (400 + HOURS_48)
             ltac:(by_evaluation) ltac:(by_evaluation) ltac:(by_evaluation)
             ltac:(by_evaluation) ltac:(by_evaluation)).
Defined.

(** Alice, whose cancelled registration for the gala is still there, holds
    the offer for its seat: she cannot accept. *)
Lemma acceptOffer_over_existing_row_witness :
  option_map wl_status (waitlistEntry_findUnique 1%nat gala_cancelled_offer) = Some OFFERED /\
  acceptOffer 500 alice 1%nat gala_cancelled_offer
  = (Throw PrismaUniqueConstraint, gala_cancelled_offer).
Proof.
  split; [by_evaluation|].
  exact (proj1 (acceptOffer_over_existing_row 500 alice 1%nat gala_cancelled_offer
                  (mkWaitlistEntry 1%nat gala alice "alice@example.org" 1 OFFERED (Some 400)
                                   (Some (400 + HOURS_48)) None 300 400)
                  (mkEvent gala "Gala" None 1 0 false (Some 5000) None "PUBLISHED" 0)
                  (mkRegistration 1%nat gala alice CANCELLED (Some PAY_PENDING) None 100 None
                                  (Some 150) None)
                  ltac:(by_evaluation) ltac:(by_evaluation) ltac:(by_evaluation)
                  ltac:(by_evaluation) ltac:(by_evaluation) ltac:(simpl; lia)
                  ltac:(by_evaluation))).
Defined.

(** Bob accepts his offer for the free picnic in time. *)
Lemma acceptOffer_free_raises_witness :
  acceptOffer 500 bob 1%nat picnic_offer = (Throw PgUndefinedColumn, picnic_offer) /\
  option_map wl_status
    (waitlistEntry_findUnique 1%nat (committed (acceptOffer 500 bob 1%nat picnic_offer)))
  = Some OFFERED /\
  eventRegistration_findByEventUser picnic bob
    (committed (acceptOffer 500 bob 1%nat picnic_offer)) = None.
Proof.
  exact (acceptOffer_free_raises 500 bob 1%nat picnic_offer
           (mkWaitlistEntry 1%nat picnic bob "bob@example.org" 1 OFFERED (Some 400)
                            (Some (400 + HOURS_48)) None 200 400)
           (mkEvent picnic "Picnic" None 1 0 true None None "PUBLISHED" 0)
           (mkUser bob "bob@example.org")
           ltac:(by_evaluation) ltac:(by_evaluation) ltac:(by_evaluation)
           ltac:(by_evaluation) ltac:(by_evaluation) ltac:(simpl; lia)
           ltac:(by_evaluation) ltac:(by_evaluation) ltac:(by_evaluation)).
Defined.

(** Bob declines his offer for the picnic; Carol gets the next one. *)
Lemma declineOffer_declines_witness :
  returned (declineOffer 500 bob 1%nat picnic_offer) = Some tt /\
  events (committed (declineOffer 500 bob 1%nat picnic_offer)) = events picnic_offer /\
  option_map wl_status
    (waitlistEntry_findUnique 1%nat (committed (declineOffer 500 bob 1%nat picnic_offer)))
  = Some DECLINED /\
  option_map wl_respondedAt
    (waitlistEntry_findUnique 1%nat (committed (declineOffer 500 bob 1%nat picnic_offer)))
  = Some (Some 500) /\
  option_map wl_position
    (waitlistEntry_findUnique 1%nat (committed (declineOffer 500 bob 1%nat picnic_offer)))
  = Some 1.
Proof.
  destruct (declineOffer_declines 500 bob 1%nat picnic_offer
              (mkWaitlistEntry 1%nat picnic bob "bob@example.org" 1 OFFERED (Some 400)
                               (Some (400 + HOURS_48)) None 200 400)
              ltac:(by_evaluation) ltac:(by_evaluation) ltac:(by_evaluation))
    as (_ & Hret & _ & Hev & _ & Hrow).
  destruct (Hrow ltac:(NoDup_by_evaluation)) as (Hs & Hr & Hp & _).
  repeat split; assumption.
Defined.

(** Bob declines his offer for the picnic: Carol, now the only live entry
    of the queue, is still at position 2. *)
Lemma declineOffer_keeps_positions_witness :
  map wl_position (waitlist (committed (declineOffer 500 bob 1%nat picnic_offer))) = [1; 2] /\
  live_positions picnic picnic_offer = [1; 2] /\
  live_positions picnic (committed (declineOffer 500 bob 1%nat picnic_offer)) = [2].
Proof.
  split; [exact (declineOffer_keeps_positions 500 bob 1%nat picnic_offer)|].
  split; by_evaluation.
Defined.

(** Carol tries to decline Bob's offer, and her own entry that holds none. *)
Lemma declineOffer_rejections_witness :
  declineOffer 500 carol 1%nat picnic_offer = (Throw NotAuthorized, picnic_offer) /\
  declineOffer 500 carol 2%nat picnic_offer = (Throw NoOfferToDecline, picnic_offer).
Proof.
  split.
  - exact (proj1 (proj2 (declineOffer_rejections 500 carol 1%nat picnic_offer))
             (mkWaitlistEntry 1%nat picnic bob "bob@example.org" 1 OFFERED (Some 400)
                              (Some (400 + HOURS_48)) None 200 400)
             ltac:(by_evaluation) ltac:(by_evaluation)).
  - exact (proj2 (proj2 (declineOffer_rejections 500 carol 2%nat picnic_offer))
             (mkWaitlistEntry 2%nat picnic carol "carol@example.org" 2 WAITING None None None
                              300 300)
             ltac:(by_evaluation) ltac:(by_evaluation) ltac:(by_evaluation)).
Defined.

(** ** The queue and the sweeps *)

(** Carol and Dave hold offers for the workshop, Erin and Frank wait: a
    promotion leaves the live positions at 1, 2, 3, 4. *)
Lemma processWaitlist_live_positions_witness :
  live_positions workshop (snd (processWaitlist 3000 workshop workshop_two_offers))
  = live_positions workshop workshop_two_offers.
Proof.
  exact (processWaitlist_live_positions 3000 workshop workshop_two_offers workshop
           ltac:(NoDup_by_evaluation)).
Defined.

(** Erin and Frank, waiting at 3 and 4 for the workshop, are renumbered 1
    and 2. *)
Lemma reorderWaitlistPositions_renumbers_witness :
  exists db',
    reorderWaitlistPositions 3000 workshop workshop_two_offers = (Ok tt, db') /\
    option_map wl_position (waitlistEntry_findUnique 3%nat db') = Some 1 /\
    option_map wl_position (waitlistEntry_findUnique 4%nat db') = Some 2 /\
    waitlistEntry_findUnique 1%nat db' = waitlistEntry_findUnique 1%nat workshop_two_offers.
Proof.
  destruct (reorderWaitlistPositions_renumbers 3000 workshop workshop_two_offers
              ltac:(NoDup_by_evaluation))
    as (db' & Hrun & Hpos & Hrest & _).
  exists db'. split; [exact Hrun|].
  pose proof (Hpos 0%nat (mkWaitlistEntry 3%nat workshop erin "erin@example.org" 3 WAITING
                                          None None None 500 500) ltac:(by_evaluation)) as H0.
  pose proof (Hpos 1%nat (mkWaitlistEntry 4%nat workshop frank "frank@example.org" 4 WAITING
                                          None None None 600 600) ltac:(by_evaluation)) as H1.
  cbn [wl_id] in H0, H1. rewrite H0, H1.
  split; [reflexivity|]. split; [reflexivity|].
  apply Hrest. vm_compute. intuition discriminate.
Defined.

(** Alice and Bob both left a checkout for the gala open; at the sweep only
    Alice's registration is older than 24 hours. *)
Lemma cleanupPendingRegistrations_sweeps_witness :
  let db := run checkout_ok db0 [OpRegister 100 alice gala; OpRegister 200 bob gala] in
  let now := 100 + HOURS_24 + 50 in
  exists db',
    cleanupPendingRegistrations now db = (Ok 1%nat, db') /\
    eventRegistration_findUnique 1%nat db'
    = Some (mkRegistration 1%nat gala alice CANCELLED (Some PAY_PENDING) None 100 None
                           (Some now) (Some "Payment timeout - auto cancelled")) /\
    option_map reg_status (eventRegistration_findUnique 2%nat db') = Some PENDING /\
    cleanupPendingRegistrations now db' = (Ok 0%nat, db') /\
    addLocalHours (-24) now = now - 86400000.
Proof.
  intros db now.
  destruct (cleanupPendingRegistrations_sweeps now db
              ltac:(NoDup_by_evaluation) ltac:(NoDup_by_evaluation))
    as (db' & Hrun & _ & _ & Hstale & Hkeep & Hagain & Hcut).
  exists db'. split; [exact Hrun|].
  destruct (Hstale (mkRegistration 1%nat gala alice PENDING (Some PAY_PENDING) None 100
                                   None None None)
                   ltac:(vm_compute; auto) ltac:(by_evaluation) ltac:(by_evaluation))
    as [_ H1].
  destruct (Hkeep (mkRegistration 2%nat gala bob PENDING (Some PAY_PENDING) None 200
                                  None None None)
                  ltac:(vm_compute; auto) ltac:(right; vm_compute; discriminate))
    as [_ H2].
  cbn [reg_id] in H1, H2. rewrite H2.
  split; [exact H1|]. split; [reflexivity|]. split; [exact Hagain|exact (Hcut utc_no_shift)].
Defined.

(** Carol's offer for the workshop has run out, Dave's has not. *)
Lemma processExpiredOffers_sweeps_witness :
  let now := 1000 + HOURS_48 + 1 in
  exists db',
    processExpiredOffers now workshop_two_offers = (Ok 1%nat, db') /\
    option_map wl_status (waitlistEntry_findUnique 1%nat db') = Some EXPIRED /\
    option_map wl_status (waitlistEntry_findUnique 2%nat db') = Some OFFERED /\
    processExpiredOffers now db' = (Ok 0%nat, db').
Proof.
  intros now.
  destruct (processExpiredOffers_sweeps now workshop_two_offers ltac:(NoDup_by_evaluation))
    as (db' & Hrun & _ & _ & _ & Hexp & Hkeep & _ & Hagain).
  exists db'. split; [exact Hrun|].
  pose proof (Hexp (mkWaitlistEntry 1%nat workshop carol "carol@example.org" 1 OFFERED
                                    (Some 1000) (Some (1000 + HOURS_48)) None 300 1000)
                   ltac:(vm_compute; auto)) as H1.
  pose proof (Hkeep (mkWaitlistEntry 2%nat workshop dave "dave@example.org" 2 OFFERED
                                     (Some 2000) (Some (2000 + HOURS_48)) None 400 2000)
                    ltac:(vm_compute; auto) ltac:(by_evaluation) ltac:(by_evaluation)) as H2.
  cbn [wl_id] in H1, H2. rewrite H1, H2.
  split; [reflexivity|]. split; [reflexivity|exact Hagain].
Defined.
